(** * Verification model of the messaging relay and the call-session code
    of the Global Center for International Development web application.

    Sources embedded here:
    - [src/server/routes.ts]: the in-memory polling mailbox
      ([clients] map, [getOrCreateClient], the register / send / poll
      handlers and the one-minute cleanup interval);
    - [src/client/src/pages/video-call.tsx]: the RTC event handlers, the
      call-duration timer and [formatDuration] of the video-call page;
    - [src/unnamed/part_001]: the [CallProvider] ([startCall], [acceptCall],
      [rejectCall], [addMessage], [endCall]);
    - [src/client/src/main.tsx]: [TranslationService.pollTranscriptionResult];
    - [src/server/storage.ts]: the [users], [calls] and [userLanguages] maps
      of [MemStorage] and their methods;
    - [src/server/routes.ts]: the [authenticate] middleware and the user,
      login, user-language and call routes that use the storage.

    A JSON number of a request body or of a stored record is an integer
    ([JNum n]: user identifiers, times in milliseconds), which binary64
    holds exactly for the safe integers [|n| <= 2^53]; [Number(s)] of a
    string rounds to binary64. Objects keep their keys in insertion order
    and are read through [obj_get]. *)

From Stdlib Require Import ZArith List String Ascii Bool Lia.
Import ListNotations.

Open Scope string_scope.
Open Scope list_scope.
Set Warnings "-register-all".

(* ------------------------------------------------------------------ *)
(** ** JavaScript / JSON values *)

Inductive jsval : Type :=
| JUndef
| JNull
| JBool (b : bool)
| JNum (n : Z)
| JStr (s : string)
| JArr (xs : list jsval)
| JObj (fields : list (string * jsval)).

(** JavaScript truthiness, as used by [!to || !type] and [!message.text]. *)
Definition truthy (v : jsval) : bool :=
  match v with
  | JUndef | JNull => false
  | JBool b => b
  | JNum n => negb (Z.eqb n 0)
  | JStr s => negb (String.eqb s "")
  | JArr _ | JObj _ => true
  end.

(** Property read [o[k]] on an object given by its own fields. *)
Fixpoint obj_get (o : list (string * jsval)) (k : string) : option jsval :=
  match o with
  | [] => None
  | (k', v) :: rest => if String.eqb k k' then Some v else obj_get rest k
  end.

(** Property write [o[k] = v]: an existing key keeps its place, a new key
    is added at the end. *)
Fixpoint obj_set (o : list (string * jsval)) (k : string) (v : jsval)
  : list (string * jsval) :=
  match o with
  | [] => [(k, v)]
  | (k', v') :: rest =>
      if String.eqb k k' then (k', v) :: rest else (k', v') :: obj_set rest k v
  end.

(** Decimal rendering of an array index, used for the keys "0", "1", ...
    that spreading a string or an array produces. *)
Definition digit_char (d : nat) : ascii := ascii_of_nat (48 + d).

Fixpoint nat_to_string_aux (fuel n : nat) (acc : string) : string :=
  match fuel with
  | O => acc
  | S fuel' =>
      let acc' := String (digit_char (Nat.modulo n 10)) acc in
      if Nat.ltb n 10 then acc' else nat_to_string_aux fuel' (Nat.div n 10) acc'
  end.

Definition nat_to_string (n : nat) : string := nat_to_string_aux (S n) n "".

Fixpoint indexed_from (i : nat) (xs : list jsval) : list (string * jsval) :=
  match xs with
  | [] => []
  | x :: rest => (nat_to_string i, x) :: indexed_from (S i) rest
  end.

(** Own enumerable properties copied by an object spread [...v]:
    strings and arrays contribute their indices, objects their fields,
    the other primitives (and [undefined], [null]) nothing. *)
Definition spread_props (v : jsval) : list (string * jsval) :=
  match v with
  | JStr s => indexed_from 0 (map (fun c => JStr (String c EmptyString))
                                   (list_ascii_of_string s))
  | JArr xs => indexed_from 0 xs
  | JObj fs => fs
  | _ => []
  end.

(** [{ ...base, ...v }]: each spread property is written in order. *)
Definition object_spread (base : list (string * jsval)) (v : jsval)
  : list (string * jsval) :=
  fold_left (fun o kv => obj_set o (fst kv) (snd kv)) (spread_props v) base.

(* ------------------------------------------------------------------ *)
(** ** [Number(...)] conversion of the recipient field and the path ids *)

(** A JavaScript number, as a [Map] key and an operand of [===]: an
    integer value, a finite non-integer value [p / q] in lowest terms
    ([q > 1]), an infinity, or [NaN]. [-0] and [0] are the same key and
    are [===], so both are [NNum 0]. *)
Inductive number : Type :=
| NNum (z : Z)
| NFrac (p q : Z)
| NInf (negative : bool)
| NNaN.

Definition number_eqb (a b : number) : bool :=
  match a, b with
  | NNum x, NNum y => Z.eqb x y
  | NFrac p q, NFrac p' q' => andb (Z.eqb p p') (Z.eqb q q')
  | NInf x, NInf y => Bool.eqb x y
  | NNaN, NNaN => true  (* [Map] keys compare with SameValueZero *)
  | _, _ => false
  end.

(** Unary minus. *)
Definition number_opp (a : number) : number :=
  match a with
  | NNum z => NNum (- z)%Z
  | NFrac p q => NFrac (- p)%Z q
  | NInf b => NInf (negb b)
  | NNaN => NNaN
  end.

(** The number [M * 2^E]. *)
Definition dyadic (M E : Z) : number :=
  (if Z.leb 0 E then NNum (M * 2 ^ E)
   else
     let d := 2 ^ (- E) in
     if Z.eqb (M mod d) 0 then NNum (M / d)
     else let g := Z.gcd M d in NFrac (M / g) (d / g))%Z.

(** Whether [p / q >= 2^k] ([q > 0]). *)
Definition ge_pow2 (p q k : Z) : bool :=
  (if Z.leb 0 k then Z.leb (q * 2 ^ k) p else Z.leb q (p * 2 ^ (- k)))%Z.

(** The binary64 number nearest to [p / q] ([p >= 0], [q > 0]), ties to
    even: a significand of 53 bits, exponents down to [-1074]
    (subnormals), and [Infinity] for values from [2^1024 - 2^970] on.
    [h] is the exponent of the leading bit of [p / q]. *)
Definition round_binary64 (p q : Z) : number :=
  (if Z.eqb p 0 then NNum 0 else
   let k := Z.log2 p - Z.log2 q in
   let h := if ge_pow2 p q k then k else k - 1 in
   let E := Z.max (h - 52) (-1074) in
   let num := p * 2 ^ (Z.max 0 (- E)) in
   let den := q * 2 ^ (Z.max 0 E) in
   let M0 := num / den in
   let r := num mod den in
   let M := if orb (Z.ltb den (2 * r)) (andb (Z.eqb (2 * r) den) (Z.odd M0))
            then M0 + 1 else M0 in
   if andb (Z.leb 0 E) (Z.leb (2 ^ 1024) (M * 2 ^ E)) then NInf false
   else dyadic M E)%Z.

(** The binary64 number of the decimal [N * 10^e] ([N >= 0]). Exponents
    whose value need not be computed are cut short: for [e > 400] the
    value is above [10^400] ([Infinity]); when [3 * -e >= log2 N + 1077]
    it is below [2^-1076], which rounds to [0]. *)
Definition decimal_value (N e : Z) : number :=
  (if Z.eqb N 0 then NNum 0
   else if Z.ltb 400 e then NInf false
   else if Z.leb 0 e then round_binary64 (N * 10 ^ e) 1
   else if Z.leb (Z.log2 N + 1077) (3 * (- e)) then NNum 0
   else round_binary64 N (10 ^ (- e)))%Z.

Definition is_ws (c : ascii) : bool :=
  match nat_of_ascii c with
  | 9 | 10 | 11 | 12 | 13 | 32 => true
  | _ => false
  end.

Fixpoint drop_ws (l : list ascii) : list ascii :=
  match l with
  | c :: rest => if is_ws c then drop_ws rest else l
  | [] => []
  end.

Definition trim_ws (l : list ascii) : list ascii := rev (drop_ws (rev (drop_ws l))).

Definition digit_val (c : ascii) : option Z :=
  let n := nat_of_ascii c in
  if andb (Nat.leb 48 n) (Nat.leb n 57) then Some (Z.of_nat (n - 48)) else None.

Fixpoint digits_value (acc : Z) (l : list ascii) : option Z :=
  match l with
  | [] => Some acc
  | c :: rest =>
      match digit_val c with
      | Some d => digits_value (acc * 10 + d) rest
      | None => None
      end
  end.

(** A digit of base [r] (2, 8 or 16): [0-9], [a-f] or [A-F]. *)
Definition radix_digit (r : Z) (c : ascii) : option Z :=
  (let n := Z.of_nat (nat_of_ascii c) in
   let d := if andb (Z.leb 48 n) (Z.leb n 57) then n - 48
            else if andb (Z.leb 97 n) (Z.leb n 122) then n - 87
            else if andb (Z.leb 65 n) (Z.leb n 90) then n - 55
            else r in
   if Z.ltb d r then Some d else None)%Z.

Fixpoint radix_value (r acc : Z) (l : list ascii) : option Z :=
  match l with
  | [] => Some acc
  | c :: rest =>
      match radix_digit r c with
      | Some d => radix_value r (acc * r + d)%Z rest
      | None => None
      end
  end.

(** The digits after [0x], [0o] or [0b]: at least one, all of base [r]. *)
Definition parse_radix (r : Z) (l : list ascii) : number :=
  match l with
  | [] => NNaN
  | _ => match radix_value r 0 l with
         | Some v => round_binary64 v 1
         | None => NNaN
         end
  end.

(** The longest prefix of decimal digits, and the rest. *)
Fixpoint span_digits (l : list ascii) : list ascii * list ascii :=
  match l with
  | [] => ([], [])
  | c :: rest =>
      match digit_val c with
      | Some _ => let (ds, r) := span_digits rest in (c :: ds, r)
      | None => ([], l)
      end
  end.

Definition unsigned_digits (l : list ascii) : option Z :=
  match l with
  | [] => None
  | _ => digits_value 0 l
  end.

(** The [SignedInteger] after [e] or [E]. *)
Definition parse_exponent (l : list ascii) : option Z :=
  match l with
  | "+"%char :: ds => unsigned_digits ds
  | "-"%char :: ds => option_map Z.opp (unsigned_digits ds)
  | _ => unsigned_digits l
  end.

(** [StrUnsignedDecimalLiteral] other than [Infinity]: integer digits, an
    optional "." with fraction digits (digits on at least one side), and
    an optional exponent. *)
Definition parse_decimal (l : list ascii) : number :=
  let (ip, r1) := span_digits l in
  let (fp, r2) := match r1 with
                  | "."%char :: r => span_digits r
                  | _ => ([], r1)
                  end in
  let ex := match r2 with
            | [] => Some 0%Z
            | c :: r => if orb (Ascii.eqb c "e") (Ascii.eqb c "E")
                        then parse_exponent r else None
            end in
  match ip, fp, ex with
  | [], [], _ => NNaN
  | _, _, None => NNaN
  | _, _, Some x =>
      match digits_value 0 (ip ++ fp) with
      | Some N => decimal_value N (x - Z.of_nat (List.length fp))%Z
      | None => NNaN
      end
  end.

Definition unsigned_literal (l : list ascii) : number :=
  if String.eqb (string_of_list_ascii l) "Infinity" then NInf false
  else parse_decimal l.

(** [Number(s)] for a string ([StringToNumber]): white space around it is
    ignored and the empty string is [0]; otherwise the string must be a
    [0x], [0o] or [0b] integer, or an optionally signed [Infinity] or
    decimal literal; anything else is [NaN]. Strings are ASCII text. *)
Definition str_to_number (s : string) : number :=
  match trim_ws (list_ascii_of_string s) with
  | [] => NNum 0
  | "0"%char :: c :: rest =>
      if orb (Ascii.eqb c "x") (Ascii.eqb c "X") then parse_radix 16 rest
      else if orb (Ascii.eqb c "o") (Ascii.eqb c "O") then parse_radix 8 rest
      else if orb (Ascii.eqb c "b") (Ascii.eqb c "B") then parse_radix 2 rest
      else unsigned_literal ("0"%char :: c :: rest)
  | "-"%char :: rest => number_opp (unsigned_literal rest)
  | "+"%char :: rest => unsigned_literal rest
  | l => unsigned_literal l
  end.

(** [Number(v)] when the conversion returns; an array converts through its
    string form ([[]] is "", [[x]] is [String(x)], longer arrays contain a
    comma), an object through "[object Object]". A JSON number [JNum n]
    is the number [n]. *)
Fixpoint js_Number (v : jsval) : number :=
  match v with
  | JUndef => NNaN
  | JNull => NNum 0
  | JBool b => NNum (if b then 1 else 0)
  | JNum n => NNum n
  | JStr s => str_to_number s
  | JArr [] => NNum 0
  | JArr [x] =>
      match x with
      | JUndef | JNull => NNum 0
      | JBool _ | JObj _ => NNaN
      | _ => js_Number x
      end
  | JArr _ => NNaN
  | JObj _ => NNaN
  end.

(** Whether [Number(v)] throws a [TypeError] instead. An object is
    converted by calling its [valueOf], then its [toString]: the inherited
    [valueOf] returns the object itself, and an own "toString" property of
    a parsed JSON object is no function, so such an object has no primitive
    value. An array is joined, which converts every element to a string;
    an object element with its own "toString" throws in the same way. *)
Fixpoint js_Number_throws (v : jsval) : bool :=
  match v with
  | JObj fs => match obj_get fs "toString" with Some _ => true | None => false end
  | JArr xs =>
      (fix any (l : list jsval) : bool :=
         match l with
         | [] => false
         | x :: rest => orb (js_Number_throws x) (any rest)
         end) xs
  | _ => false
  end.

(* ------------------------------------------------------------------ *)
(** ** The polling mailbox of [src/server/routes.ts] *)

Module Relay.

(** One value of [clients]: [{ lastPoll: number, messages: any[] }];
    times are [Date.now()] milliseconds. *)
Record client : Type := mkClient {
  lastPoll : Z;
  messages : list jsval
}.

(** [const clients = new Map<number, ...>()]: an insertion-ordered map. *)
Definition clients := list (number * client).

Definition STALE_MS : Z := 5 * 60 * 1000.
Definition SWEEP_INTERVAL_MS : Z := 60 * 1000.
Definition MAX_MESSAGES : nat := 100.

Fixpoint lookup (k : number) (m : clients) : option client :=
  match m with
  | [] => None
  | (k', c) :: rest => if number_eqb k k' then Some c else lookup k rest
  end.

Definition has (k : number) (m : clients) : bool :=
  match lookup k m with Some _ => true | None => false end.

(** Mutating the object [clients.get(k)] in place. *)
Fixpoint update (k : number) (f : client -> client) (m : clients) : clients :=
  match m with
  | [] => []
  | (k', c) :: rest =>
      if number_eqb k k' then (k', f c) :: rest else (k', c) :: update k f rest
  end.

(** [getOrCreateClient(userId)]: adds [{ lastPoll: Date.now(), messages: [] }]
    when the key is absent; the caller then works on [clients.get(userId)]. *)
Definition getOrCreateClient (k : number) (now : Z) (m : clients) : clients :=
  if has k m then m else m ++ [(k, mkClient now [])].

(** [setInterval(() => { ... clients.delete(userId) ... }, 60 * 1000)]:
    one run of the cleanup, removing every client with
    [now - client.lastPoll > 5 * 60 * 1000]. *)
Definition sweep (now : Z) (m : clients) : clients :=
  filter (fun kc => negb (Z.ltb STALE_MS (now - lastPoll (snd kc)))) m.

Inductive response : Type :=
| RSuccess                            (* res.json({ success: true }) *)
| RStatus (code : Z) (msg : string)   (* res.status(code).json({ message }) *)
| RMessages (ms : list jsval).        (* res.json({ messages }) *)

(** POST /api/messaging/register *)
Definition register (userId : Z) (now : Z) (m : clients) : response * clients :=
  let k := NNum userId in
  (RSuccess,
   update k (fun c => mkClient now (messages c)) (getOrCreateClient k now m)).

(** The message built by the send handler:
    [{ type, from: senderId, ...payload }]. *)
Definition make_message (type : jsval) (senderId : Z) (payload : jsval) : jsval :=
  JObj (object_spread [("type", type); ("from", JNum senderId)] payload).

(** [recipientClient.messages.push(message)] followed by
    [if (recipientClient.messages.length > 100) recipientClient.messages.shift()]. *)
Definition push_capped (msg : jsval) (c : client) : client :=
  let q := messages c ++ [msg] in
  mkClient (lastPoll c) (if Nat.ltb MAX_MESSAGES (List.length q) then List.tl q else q).

(** Reading a field of [req.body] by destructuring. *)
Definition field (body : list (string * jsval)) (k : string) : jsval :=
  match obj_get body k with Some v => v | None => JUndef end.

(** POST /api/messaging/send, for the authenticated user [senderId]. The
    [catch] answers 500 when [Number(to)] throws, before any entry is
    created; building and pushing the message do not throw. *)
Definition send (senderId : Z) (body : list (string * jsval)) (now : Z)
    (m : clients) : response * clients :=
  let to := field body "to" in
  let type := field body "type" in
  let payload := field body "payload" in
  if orb (negb (truthy to)) (negb (truthy type)) then
    (RStatus 400 "Missing required fields", m)
  else if js_Number_throws to then
    (RStatus 500 "Failed to send message", m)
  else
    let k := js_Number to in
    (RSuccess,
     update k (push_capped (make_message type senderId payload))
       (getOrCreateClient k now m)).

(** GET /api/messaging/poll, for the authenticated user [userId]. *)
Definition poll (userId : Z) (now : Z) (m : clients) : response * clients :=
  let k := NNum userId in
  let m1 := getOrCreateClient k now m in
  let msgs := match lookup k m1 with Some c => messages c | None => [] end in
  (RMessages msgs, update k (fun _ => mkClient now []) m1).

(** Requests and timer runs reaching the relay, each at its time. *)
Inductive event : Type :=
| ERegister (userId now : Z)
| ESend (senderId : Z) (body : list (string * jsval)) (now : Z)
| EPoll (userId now : Z)
| ESweep (now : Z).

Definition step (e : event) (m : clients) : response * clients :=
  match e with
  | ERegister u t => register u t m
  | ESend s b t => send s b t m
  | EPoll u t => poll u t m
  | ESweep t => (RSuccess, sweep t m)
  end.

Fixpoint run (es : list event) (m : clients) : list response * clients :=
  match es with
  | [] => ([], m)
  | e :: rest =>
      let (r, m1) := step e m in
      let (rs, m2) := run rest m1 in (r :: rs, m2)
  end.

End Relay.

(* ------------------------------------------------------------------ *)
(** ** The call session: [CallProvider] and the video-call page *)

Module Call.

(** A [User]; only its identity matters here (a [User] object is truthy). *)
Record user : Type := mkUser { user_id : Z }.

(** [interface Message { id, sender, text, translatedText?, timestamp }],
    timestamps in milliseconds. *)
Record message : Type := mkMessage {
  msg_id : string;
  sender : user;
  text : string;
  translatedText : option string;
  timestamp : Z
}.

(** The argument of [addMessage]: a [Partial<Message>]. *)
Record partial_message : Type := mkPartial {
  p_sender : option user;
  p_text : option string;
  p_translatedText : option string;
  p_timestamp : option Z
}.

(** The state of [CallProvider] ([useState] cells and the
    [messageIdCounter] ref), with the toasts it has shown. *)
Record provider : Type := mkProvider {
  isInCall : bool;
  isCalling : bool;
  callPartner : option user;
  transcript : list message;   (* the [messages] state *)
  messageIdCounter : nat;
  toasts : list string
}.

Inductive phase : Type := Idle | Calling | Connected.

(** The call phase as the provider exposes it. *)
Definition phase_of (p : provider) : phase :=
  if isInCall p then Connected else if isCalling p then Calling else Idle.

Definition initial_provider : provider := mkProvider false false None [] 0 [].

Definition startCall (partner : user) (p : provider) : provider :=
  mkProvider (isInCall p) true (Some partner) (transcript p)
    (messageIdCounter p) (toasts p ++ ["Calling..."]).

Definition acceptCall (p : provider) : provider :=
  mkProvider true false (callPartner p) (transcript p)
    (messageIdCounter p) (toasts p ++ ["Call connected"]).

Definition endCall (p : provider) : provider :=
  mkProvider false false None [] (messageIdCounter p) (toasts p ++ ["Call ended"]).

(** [addMessage(message)] at time [now] ([new Date()]). *)
Definition addMessage (m : partial_message) (now : Z) (p : provider) : provider :=
  match p_sender m, p_text m with
  | Some s, Some t =>
      if String.eqb t "" then p   (* [!message.text] *)
      else
        let newMessage :=
          mkMessage ("msg-" ++ nat_to_string (messageIdCounter p))%string s t
            (p_translatedText m)
            (match p_timestamp m with Some ts => ts | None => now end) in
        mkProvider (isInCall p) (isCalling p) (callPartner p)
          (transcript p ++ [newMessage]) (S (messageIdCounter p)) (toasts p)
  | _, _ => p
  end.

(** State of the [VideoCall] page: its [useState] cells, whether the
    interval in [durationIntervalRef] is scheduled, whether the RTC client
    is in a channel, and the router location. *)
Record page : Type := mkPage {
  isConnected : bool;
  callDuration : nat;
  timerActive : bool;
  rtcJoined : bool;
  location : string
}.

Record app : Type := mkApp {
  ui : page;
  ctx : provider
}.

(** Events reaching the page: the RTC client's callbacks, the resolution of
    [agoraClient.join] in [initializeCall], one-second interval ticks and
    the end-call button. *)
Inductive page_event : Type :=
| RemoteUserJoined (hasVideoTrack : bool)
| RemoteUserLeft
| LocalUserJoined
| RtcError
| JoinResolved
| Tick
| EndCallClicked.

Definition set_connected (b : bool) (g : page) : page :=
  mkPage b (callDuration g) (timerActive g) (rtcJoined g) (location g).

(** [startDurationTimer]: clear any interval, [setCallDuration(0)], start a
    new one-second interval. *)
Definition startDurationTimer (g : page) : page :=
  mkPage (isConnected g) 0 true (rtcJoined g) (location g).

(** [handleEndCall]: [agoraClient.leave()], [clearInterval], [endCall()],
    [setLocation("/")]. *)
Definition handleEndCall (a : app) : app :=
  let g := ui a in
  mkApp (mkPage (isConnected g) (callDuration g) false false "/") (endCall (ctx a)).

Definition page_step (e : page_event) (a : app) : app :=
  let g := ui a in
  match e with
  | RemoteUserJoined hasVideo =>
      if hasVideo then mkApp (set_connected true g) (ctx a) else a
  | RemoteUserLeft => handleEndCall (mkApp (set_connected false g) (ctx a))
  | LocalUserJoined =>
      (* [agoraClient.join] has joined and published before this callback *)
      mkApp (startDurationTimer (mkPage (isConnected g) (callDuration g)
                                   (timerActive g) true (location g))) (ctx a)
  | RtcError => a
  | JoinResolved => mkApp (set_connected true g) (ctx a)
  | Tick =>
      if timerActive g then
        mkApp (mkPage (isConnected g) (S (callDuration g)) true (rtcJoined g)
                 (location g)) (ctx a)
      else a
  | EndCallClicked => handleEndCall a
  end.

Definition page_run (es : list page_event) (a : app) : app :=
  fold_left (fun s e => page_step e s) es a.

Definition initial_page : page := mkPage false 0 false false "/call".

Definition initial_app : app := mkApp initial_page initial_provider.

End Call.

(* ------------------------------------------------------------------ *)
(** ** [TranslationService.pollTranscriptionResult] ([src/client/src/main.tsx]) *)

Module Transcription.

Definition maxAttempts : nat := 30.
Definition RETRY_DELAY_MS : Z := 2000.

(** What one [await getTranscriptionResult(id)] yields: [data.text] when the
    status is "completed", [null] while processing, or a thrown error. *)
Inductive result : Type :=
| Completed (text : string)
| Processing
| Thrown (msg : string).

(** The promise's state, with the attempts made and the total time spent in
    [setTimeout(checkResult, 2000)] delays. *)
Inductive poll_state : Type :=
| Polling (attempts : nat) (waited : Z)
| Resolved (text : string) (attempts : nat) (waited : Z)
| Rejected (err : string) (attempts : nat) (waited : Z).

(** One run of [checkResult]; [service n] is the answer to the [n]-th
    request (counting from 1). *)
Definition checkResult (service : nat -> result) (s : poll_state) : poll_state :=
  match s with
  | Polling attempts waited =>
      let attempts := S attempts in
      match service attempts with
      | Thrown e => Rejected e attempts waited
      | Completed t =>
          if negb (String.eqb t "") then Resolved t attempts waited
          else if Nat.leb maxAttempts attempts
               then Rejected "Transcription timed out" attempts waited
               else Polling attempts (waited + RETRY_DELAY_MS)%Z
      | Processing =>
          if Nat.leb maxAttempts attempts
          then Rejected "Transcription timed out" attempts waited
          else Polling attempts (waited + RETRY_DELAY_MS)%Z
      end
  | done => done
  end.

(** Runs of [checkResult], the first one started directly and each later
    one by the timer. *)
Fixpoint run_checks (n : nat) (service : nat -> result) (s : poll_state)
  : poll_state :=
  match n with
  | O => s
  | S n' => run_checks n' service (checkResult service s)
  end.

Definition start : poll_state := Polling 0 0.

Definition is_pending (s : poll_state) : bool :=
  match s with Polling _ _ => true | _ => false end.

Definition attempts_of (s : poll_state) : nat :=
  match s with
  | Polling a _ | Resolved _ a _ | Rejected _ a _ => a
  end.

End Transcription.

(* ------------------------------------------------------------------ *)
(** ** Observations on the relay used by the statements below *)

Module RelayView.
Import Relay.

(** The pending messages of key [k] ([] when there is no entry). *)
Definition queue_of (k : number) (m : clients) : list jsval :=
  match lookup k m with Some c => messages c | None => [] end.

(** The last [n] elements of a list. *)
Definition keep_last (n : nat) (l : list jsval) : list jsval :=
  skipn (List.length l - n) l.

(** Whether a request body passes the check [!to || !type] of the send
    handler. *)
Definition has_fields (body : list (string * jsval)) : bool :=
  andb (truthy (field body "to")) (truthy (field body "type")).

(** Whether the send handler accepts a request body and delivers its
    message: the check passes and [Number(to)] returns. *)
Definition accepted (body : list (string * jsval)) : bool :=
  andb (has_fields body) (negb (js_Number_throws (field body "to"))).

(** The messages that the accepted sends among [es] address to key [k],
    in order. *)
Fixpoint delivered_to (k : number) (es : list event) : list jsval :=
  match es with
  | [] => []
  | ESend s b _ :: rest =>
      if andb (accepted b) (number_eqb k (js_Number (field b "to")))
      then make_message (field b "type") s (field b "payload") :: delivered_to k rest
      else delivered_to k rest
  | _ :: rest => delivered_to k rest
  end.

(** Events that neither poll key [k] nor run the cleanup. *)
Definition quiet_for (k : number) (e : event) : bool :=
  match e with
  | ESweep _ => false
  | EPoll u _ => negb (number_eqb k (NNum u))
  | _ => true
  end.

(** Every queue holds at most [MAX_MESSAGES] messages. *)
Definition capped (m : clients) : Prop :=
  Forall (fun kc => List.length (messages (snd kc)) <= MAX_MESSAGES)%nat m.

(** The fields of a delivered message object. *)
Definition fields_of (v : jsval) : list (string * jsval) :=
  match v with JObj fs => fs | _ => [] end.

(** The [n]-th run of the one-minute cleanup after the interval was set at
    time [t0]. *)
Definition sweep_time (t0 : Z) (n : nat) : Z := (t0 + SWEEP_INTERVAL_MS * Z.of_nat n)%Z.

(** Request bodies used in the concrete scenarios. *)
Definition ping_to_2 : list (string * jsval) :=
  [("to", JNum 2); ("type", JStr "ping"); ("payload", JNull)].

Definition invite_to_2 : list (string * jsval) :=
  [("to", JNum 2); ("type", JStr "invite");
   ("payload", JObj [("channel", JStr "call-123")])].

Definition resp_count (r : response) : nat :=
  match r with RMessages ms => List.length ms | _ => 0 end.

(** Keys of the map have no duplicates. *)
Definition keys_unique (m : clients) : Prop := NoDup (map fst m).

End RelayView.

(* ------------------------------------------------------------------ *)
(** ** Observations on the call session and the transcription loop *)

Module CallView.
Import Call.

(** [addMessage]'s guard [!message.sender || !message.text] passes. *)
Definition valid_partial (m : partial_message) : bool :=
  match p_sender m, p_text m with
  | Some _, Some t => negb (String.eqb t "")
  | _, _ => false
  end.

(** A transcript entry without its generated id. *)
Definition entry_view (x : message) : user * string * option string * Z :=
  (sender x, text x, translatedText x, timestamp x).

(** The entry an accepted [addMessage(m)] at time [now] should append. *)
Definition expected_entry (m : partial_message) (now : Z)
  : option (user * string * option string * Z) :=
  match p_sender m, p_text m with
  | Some s, Some t =>
      Some (s, t, p_translatedText m,
            match p_timestamp m with Some ts => ts | None => now end)
  | _, _ => None
  end.

(** Successive [addMessage] calls, each with its time. *)
Definition add_all (ms : list (partial_message * Z)) (p : provider) : provider :=
  fold_left (fun p mt => addMessage (fst mt) (snd mt) p) ms p.

(** Everything [handleEndCall] can change except the toasts shown. *)
Definition session_state (a : app)
  : page * bool * bool * option user * list message * nat :=
  (ui a, isInCall (ctx a), isCalling (ctx a), callPartner (ctx a),
   transcript (ctx a), messageIdCounter (ctx a)).

Definition alice : user := mkUser 1.

Definition hello : partial_message := mkPartial (Some alice) (Some "hello") None (Some 5%Z).

End CallView.

Module TranscriptionView.
Import Transcription.

(** An answer that makes [checkResult] keep polling: [null] while
    processing, or a completed job whose text is the empty string. *)
Definition pending_like (r : result) : bool :=
  match r with
  | Processing => true
  | Completed t => String.eqb t ""
  | Thrown _ => false
  end.

Definition waited_of (s : poll_state) : Z :=
  match s with
  | Polling _ w | Resolved _ _ w | Rejected _ _ w => w
  end.

(** The bookkeeping every state reachable from [start] satisfies. *)
Definition well_formed (s : poll_state) : Prop :=
  match s with
  | Polling a w => (a < maxAttempts)%nat /\ w = (RETRY_DELAY_MS * Z.of_nat a)%Z
  | Resolved _ a w | Rejected _ a w =>
      (1 <= a <= maxAttempts)%nat /\ w = (RETRY_DELAY_MS * Z.of_nat (a - 1))%Z
  end.

(** A service that never finishes the job. *)
Definition always_processing (_ : nat) : result := Processing.

End TranscriptionView.

(* ------------------------------------------------------------------ *)
(** ** The call-duration label of the video-call page *)

Module Duration.

(** [s.padStart(n, c)] for a one-character pad string [c]: copies of [c]
    in front of [s] up to length [n]; a longer [s] is left as it is. *)
Definition padStart (n : nat) (c : ascii) (s : string) : string :=
  (string_of_list_ascii (repeat c (n - String.length s)) ++ s)%string.

(** [formatDuration(seconds)] of [src/client/src/pages/video-call.tsx],
    applied to the page's [callDuration], a count of seconds. *)
Definition formatDuration (seconds : nat) : string :=
  let minutes := Nat.div seconds 60 in
  let remainingSeconds := Nat.modulo seconds 60 in
  (padStart 2 "0" (nat_to_string minutes) ++ ":" ++
   padStart 2 "0" (nat_to_string remainingSeconds))%string.

End Duration.

(* ------------------------------------------------------------------ *)
(** ** The rest of [CallProvider] *)

Module CallMore.
Import Call.

(** [rejectCall]: [setIsCalling(false)], [setCallPartner(null)] and a toast. *)
Definition rejectCall (p : provider) : provider :=
  mkProvider (isInCall p) false None (transcript p) (messageIdCounter p)
    (toasts p ++ ["Call rejected"]).

(** The functions the provider exposes, as calls made by its consumers.
    [startCall]'s language arguments and [setCallLanguages] only set the
    two language cells, which the session state above does not hold. *)
Inductive provider_op : Type :=
| OpStart (partner : user)
| OpAccept
| OpReject
| OpEnd
| OpAdd (m : partial_message) (now : Z).

Definition provider_step (p : provider) (o : provider_op) : provider :=
  match o with
  | OpStart u => startCall u p
  | OpAccept => acceptCall p
  | OpReject => rejectCall p
  | OpEnd => endCall p
  | OpAdd m t => addMessage m t p
  end.

Definition provider_run (os : list provider_op) (p : provider) : provider :=
  fold_left provider_step os p.

(** The ids of the transcript entries. *)
Definition transcript_ids (p : provider) : list string := map msg_id (transcript p).

End CallMore.

(** Observations on the provider used by the statements below. *)
Module CallMoreView.
Import Call CallMore.

(** Every transcript entry carries an id ["msg-k"] with [lo <= k] below the
    counter, and the ids are distinct. *)
Definition ids_from (lo : nat) (p : provider) : Prop :=
  (lo <= messageIdCounter p)%nat /\ NoDup (transcript_ids p) /\
  forall x, In x (transcript p) ->
    exists k, (lo <= k < messageIdCounter p)%nat /\
              msg_id x = ("msg-" ++ nat_to_string k)%string.

End CallMoreView.

(* ------------------------------------------------------------------ *)
(** ** [MemStorage] ([src/server/storage.ts]) and the REST routes of
    [src/server/routes.ts] that use it *)

Module Server.
Import Relay.

(** A JavaScript object, by its own properties in order. *)
Definition obj := list (string * jsval).

(** [a === b] between a value read from a stored record and one from a
    parsed request body: primitives compare by value; an object or array
    of a parsed body is a fresh object, identical to no other value. *)
Definition strict_eq (a b : jsval) : bool :=
  match a, b with
  | JUndef, JUndef | JNull, JNull => true
  | JBool x, JBool y => Bool.eqb x y
  | JNum x, JNum y => Z.eqb x y
  | JStr x, JStr y => String.eqb x y
  | _, _ => false
  end.

(** A [Map<number, V>]: insertion-ordered, [set] on a present key keeps
    its place, [delete] removes the key's entry. *)
Fixpoint map_get {V : Type} (k : number) (m : list (number * V)) : option V :=
  match m with
  | [] => None
  | (k', v) :: rest => if number_eqb k k' then Some v else map_get k rest
  end.

Fixpoint map_set {V : Type} (k : number) (v : V) (m : list (number * V))
  : list (number * V) :=
  match m with
  | [] => [(k, v)]
  | (k', v') :: rest =>
      if number_eqb k k' then (k', v) :: rest else (k', v') :: map_set k v rest
  end.

Definition map_delete {V : Type} (k : number) (m : list (number * V))
  : bool * list (number * V) :=
  (match map_get k m with Some _ => true | None => false end,
   filter (fun kv => negb (number_eqb k (fst kv))) m).

(** The [users] and [calls] maps of a [MemStorage] with their id counters.
    A [Date] is held by its time value in milliseconds. *)
Record mem : Type := mkMem {
  users : list (number * obj);
  calls : list (number * obj);
  currentUserId : Z;
  currentCallId : Z
}.

Definition getUser (id : number) (s : mem) : option obj := map_get id (users s).

(** [Array.from(this.users.values()).find((user) => user.username === username)] *)
Definition getUserByUsername (username : jsval) (s : mem) : option obj :=
  find (fun user => strict_eq (field user "username") username) (map snd (users s)).

Definition getUserByEmail (email : jsval) (s : mem) : option obj :=
  find (fun user => strict_eq (field user "email") email) (map snd (users s)).

(** [createUser] at time [now]: [{ ...insertUser, id, createdAt: now }]
    stored under [this.currentUserId++]. *)
Definition createUser (insertUser : obj) (now : Z) (s : mem) : obj * mem :=
  let id := currentUserId s in
  let user := obj_set (obj_set (object_spread [] (JObj insertUser)) "id" (JNum id))
                "createdAt" (JNum now) in
  (user, mkMem (map_set (NNum id) user (users s)) (calls s) (id + 1) (currentCallId s)).

(** [updateUser]: [{ ...user, ...userData }] when the user exists. *)
Definition updateUser (id : number) (userData : obj) (s : mem) : option obj * mem :=
  match getUser id s with
  | None => (None, s)
  | Some user =>
      let updatedUser := object_spread (object_spread [] (JObj user)) (JObj userData) in
      (Some updatedUser,
       mkMem (map_set id updatedUser (users s)) (calls s) (currentUserId s) (currentCallId s))
  end.

(** [deleteUser]: [this.users.delete(id)]. *)
Definition deleteUser (id : number) (s : mem) : bool * mem :=
  let (found, us) := map_delete id (users s) in
  (found, mkMem us (calls s) (currentUserId s) (currentCallId s)).

Definition getCallById (id : number) (s : mem) : option obj := map_get id (calls s).

(** [createCall] at time [now]:
    [{ ...insertCall, id, startTime: now, endTime: null, duration: null }]. *)
Definition createCall (insertCall : obj) (now : Z) (s : mem) : obj * mem :=
  let id := currentCallId s in
  let call := obj_set (obj_set (obj_set (obj_set (object_spread [] (JObj insertCall))
                "id" (JNum id)) "startTime" (JNum now)) "endTime" JNull) "duration" JNull in
  (call, mkMem (users s) (map_set (NNum id) call (calls s)) (currentUserId s) (id + 1)).

(** [updateCall(id, endTime, duration)]: [{ ...call, endTime, duration }]. *)
Definition updateCall (id : number) (endTime duration : jsval) (s : mem)
  : option obj * mem :=
  match getCallById id s with
  | None => (None, s)
  | Some call =>
      let updatedCall :=
        obj_set (obj_set (object_spread [] (JObj call)) "endTime" endTime)
          "duration" duration in
      (Some updatedCall,
       mkMem (users s) (map_set id updatedCall (calls s)) (currentUserId s) (currentCallId s))
  end.

(** The sample user the constructor creates. *)
Definition johndoe : obj :=
  [("username", JStr "johndoe"); ("password", JStr "password123");
   ("displayName", JStr "John Doe"); ("email", JStr "john@example.com");
   ("bio", JStr "Language enthusiast and software developer");
   ("profilePicture", JNull); ("nativeLanguage", JStr "en")].

(** [new MemStorage()] at time [now] (the users and calls it holds). *)
Definition memStorage (now : Z) : mem :=
  snd (createUser johndoe now (mkMem [] [] 1 1)).

(** What a route handler sends. *)
Inductive http : Type :=
| HStatus (code : Z) (msg : string)   (* res.status(code).json({ message }) *)
| HJson (code : Z) (body : jsval)     (* res.status(code).json(body), 200 for res.json *)
| HEmpty (code : Z).                  (* res.status(code).send() *)

(** The [authenticate] middleware, given the [user-id] request header:
    either the response it sends or the user it attaches to the request. *)
Definition authenticate (header : option string) (s : mem) : http + obj :=
  match header with
  | None => inl (HStatus 401 "Unauthorized")
  | Some h =>
      if String.eqb h "" then inl (HStatus 401 "Unauthorized")
      else match getUser (str_to_number h) s with
           | None => inl (HStatus 401 "User not found")
           | Some user => inr user
           end
  end.

(** POST /api/users at time [now], for the value [userData] that
    [insertUserSchema.parse(req.body)] returned. *)
Definition postUsers (userData : obj) (now : Z) (s : mem) : http * mem :=
  match getUserByUsername (field userData "username") s with
  | Some _ => (HStatus 400 "Username already taken", s)
  | None =>
      match getUserByEmail (field userData "email") s with
      | Some _ => (HStatus 400 "Email already in use", s)
      | None => let (user, s') := createUser userData now s in (HJson 201 (JObj user), s')
      end
  end.

(** [const { password: _, ...userWithoutPassword } = user] *)
Definition obj_omit (o : obj) (k : string) : obj :=
  filter (fun kv => negb (String.eqb (fst kv) k)) o.

(** POST /api/auth/login *)
Definition login (body : obj) (s : mem) : http :=
  let username := field body "username" in
  let password := field body "password" in
  if orb (negb (truthy username)) (negb (truthy password)) then
    HStatus 400 "Username and password are required"
  else
    match getUserByUsername username s with
    | None => HStatus 401 "Invalid credentials"
    | Some user =>
        if negb (strict_eq (field user "password") password)
        then HStatus 401 "Invalid credentials"
        else HJson 200 (JObj (obj_omit user "password"))
    end.

(** [user.id !== id] for a user record and a converted path parameter: a
    stored number is an integer, identical only to the same integer ([NaN]
    is identical to nothing). *)
Definition strict_eq_number (v : jsval) (n : number) : bool :=
  match v, n with
  | JNum x, NNum y => Z.eqb x y
  | _, _ => false
  end.

(** PATCH /api/users/:id for the authenticated user [me], with the path
    parameter [idParam] and the value [validatedData] that
    [updateUserSchema.parse(userData)] returned (after the uploaded
    picture's path was put in [userData]). *)
Definition patchUser (me : obj) (idParam : string) (validatedData : obj) (s : mem)
  : http * mem :=
  let id := str_to_number idParam in
  match getUser id s with
  | None => (HStatus 404 "User not found", s)
  | Some _ =>
      if negb (strict_eq_number (field me "id") id) then (HStatus 403 "Forbidden", s)
      else
        let (updatedUser, s') := updateUser id validatedData s in
        (HJson 200 (match updatedUser with Some u => JObj u | None => JUndef end), s')
  end.

(** POST /api/calls for the authenticated user [me], at time [now], for
    the value [callData] that [insertCallSchema.parse(req.body)] returned. *)
Definition postCalls (me : Z) (callData : obj) (now : Z) (s : mem) : http * mem :=
  if negb (strict_eq (JNum me) (field callData "initiatorId")) then
    (HStatus 403 "Forbidden", s)
  else let (call, s') := createCall callData now s in (HJson 201 (JObj call), s').

(** PATCH /api/calls/:id/end for the authenticated user [me], with the
    path parameter [idParam], at time [now]. *)
Definition endCallRoute (me : Z) (idParam : string) (body : obj) (now : Z) (s : mem)
  : http * mem :=
  let id := str_to_number idParam in
  match field body "duration" with
  | JNum d =>
      if Z.ltb d 0 then (HStatus 400 "Invalid duration", s)
      else
        match getCallById id s with
        | None => (HStatus 404 "Call not found", s)
        | Some call =>
            if andb (negb (strict_eq (field call "initiatorId") (JNum me)))
                    (negb (strict_eq (field call "receiverId") (JNum me)))
            then (HStatus 403 "Forbidden", s)
            else
              let (updatedCall, s') := updateCall id (JNum now) (JNum d) s in
              (HJson 200 (match updatedCall with Some c => JObj c | None => JUndef end), s')
        end
  | _ => (HStatus 400 "Invalid duration", s)   (* typeof duration !== "number" *)
  end.

End Server.

(** The [userLanguages] map of a [MemStorage] with its id counter, and the
    routes that use it. *)
Module Langs.
Import Relay Server.

Record lstore : Type := mkLangs {
  userLanguages : list (number * obj);
  currentUserLanguageId : Z
}.

(** [Array.from(this.userLanguages.values()).filter((language) =>
    language.userId === userId)] *)
Definition getUserLanguages (userId : number) (ls : lstore) : list obj :=
  filter (fun language => strict_eq_number (field language "userId") userId)
    (map snd (userLanguages ls)).

(** [addUserLanguage]: [{ ...insertLanguage, id }] stored under
    [this.currentUserLanguageId++]. *)
Definition addUserLanguage (insertLanguage : obj) (ls : lstore) : obj * lstore :=
  let id := currentUserLanguageId ls in
  let language := obj_set (object_spread [] (JObj insertLanguage)) "id" (JNum id) in
  (language, mkLangs (map_set (NNum id) language (userLanguages ls)) (id + 1)).

(** [updateUserLanguage]: [{ ...language, ...languageData }] when present. *)
Definition updateUserLanguage (id : number) (languageData : obj) (ls : lstore)
  : option obj * lstore :=
  match map_get id (userLanguages ls) with
  | None => (None, ls)
  | Some language =>
      let updatedLanguage :=
        object_spread (object_spread [] (JObj language)) (JObj languageData) in
      (Some updatedLanguage,
       mkLangs (map_set id updatedLanguage (userLanguages ls)) (currentUserLanguageId ls))
  end.


(** The two sample languages the constructor adds for user 1. *)
Definition memLangs : lstore :=
  let ls1 := snd (addUserLanguage [("userId", JNum 1); ("language", JStr "es");
                                   ("proficiency", JStr "basic")] (mkLangs [] 1)) in
  snd (addUserLanguage [("userId", JNum 1); ("language", JStr "fr");
                        ("proficiency", JStr "beginner")] ls1).

(** GET /api/users/:userId/languages *)
Definition getLanguagesRoute (userIdParam : string) (ls : lstore) : http :=
  HJson 200 (JArr (map JObj (getUserLanguages (str_to_number userIdParam) ls))).

(** POST /api/users/:userId/languages for the authenticated user [me], with
    the value [validatedData] that [insertUserLanguageSchema.parse] returned
    for [{ ...req.body, userId }]. *)
Definition postLanguages (me : Z) (userIdParam : string) (validatedData : obj)
    (ls : lstore) : http * lstore :=
  let userId := str_to_number userIdParam in
  if negb (strict_eq_number (JNum me) userId) then (HStatus 403 "Forbidden", ls)
  else
    if existsb (fun lang => strict_eq (field lang "language") (field validatedData "language"))
         (getUserLanguages userId ls)
    then (HStatus 400 "Language already added for user", ls)
    else let (language, ls') := addUserLanguage validatedData ls in
         (HJson 201 (JObj language), ls').

(** The language the PATCH and DELETE routes look up: the first of the
    requester's languages whose [id] is the path parameter. *)
Definition findOwnLanguage (me : Z) (id : number) (ls : lstore) : option obj :=
  find (fun lang => strict_eq_number (field lang "id") id) (getUserLanguages (NNum me) ls).

(** PATCH /api/user-languages/:id for the authenticated user [me], with the
    value [validatedData] that [updateUserLanguageSchema.parse(req.body)]
    returned. *)
Definition patchLanguage (me : Z) (idParam : string) (validatedData : obj) (ls : lstore)
  : http * lstore :=
  let id := str_to_number idParam in
  match findOwnLanguage me id ls with
  | None => (HStatus 404 "Language not found", ls)
  | Some language =>
      if negb (strict_eq (JNum me) (field language "userId")) then (HStatus 403 "Forbidden", ls)
      else
        let (updatedLanguage, ls') := updateUserLanguage id validatedData ls in
        (HJson 200 (match updatedLanguage with Some l => JObj l | None => JUndef end), ls')
  end.


Section UserRoute.
(** [Date.prototype.toISOString] on a time value. *)
Variable toISOString : Z -> string.

(** [getUserWithLanguages]: [undefined] for a missing user, otherwise
    [{ ...user, createdAt: user.createdAt.toISOString(), languages }]; the
    outer [None] is the [TypeError] thrown when [createdAt] is no date. *)
Definition getUserWithLanguages (id : number) (s : mem) (ls : lstore)
  : option (option obj) :=
  match getUser id s with
  | None => Some None
  | Some user =>
      match field user "createdAt" with
      | JNum t =>
          Some (Some (obj_set (obj_set (object_spread [] (JObj user))
                                 "createdAt" (JStr (toISOString t)))
                        "languages" (JArr (map JObj (getUserLanguages id ls)))))
      | _ => None
      end
  end.

(** GET /api/users/:id; a thrown error reaches [handleError]. *)
Definition getUserRoute (idParam : string) (s : mem) (ls : lstore) : http :=
  match getUserWithLanguages (str_to_number idParam) s ls with
  | None => HStatus 500 "Internal server error"
  | Some None => HStatus 404 "User not found"
  | Some (Some user) => HJson 200 (JObj user)
  end.

(** [date.toISOString()] on a stored value: a date is held by its time
    value; on anything else the call throws ([None]). *)
Definition date_iso (v : jsval) : option jsval :=
  match v with JNum t => Some (JStr (toISOString t)) | _ => None end.

(** [this.getUser(v)]: the map has only number keys. *)
Definition getUserAt (v : jsval) (s : mem) : option obj :=
  match v with JNum z => getUser (NNum z) s | _ => None end.

(** The participant summary [getCalls] builds: the listed properties only. *)
Definition user_summary (u : obj) : option jsval :=
  match date_iso (field u "createdAt") with
  | None => None
  | Some c =>
      Some (JObj [("id", field u "id"); ("username", field u "username");
                  ("displayName", field u "displayName"); ("email", field u "email");
                  ("bio", field u "bio"); ("profilePicture", field u "profilePicture");
                  ("nativeLanguage", field u "nativeLanguage"); ("createdAt", c)])
  end.

(** The object [getCalls] builds for one call. *)
Definition call_response (s : mem) (call : obj) : option obj :=
  match date_iso (field call "startTime") with
  | None => None
  | Some st =>
      let et := match field call "endTime" with
                | JNum t => Some (JStr (toISOString t))
                | v => if truthy v then None else Some JNull
                end in
      match et with
      | None => None
      | Some et =>
          let side v := match getUserAt v s with
                        | None => Some JUndef
                        | Some u => user_summary u
                        end in
          match side (field call "initiatorId"), side (field call "receiverId") with
          | Some ini, Some rec =>
              Some (obj_set (obj_set (obj_set (obj_set (object_spread [] (JObj call))
                       "startTime" st) "endTime" et) "initiator" ini) "receiver" rec)
          | _, _ => None
          end
      end
  end.

(** [Promise.all]: all results, or the first rejection. *)
Fixpoint all_ok {A : Type} (xs : list (option A)) : option (list A) :=
  match xs with
  | [] => Some []
  | None :: _ => None
  | Some x :: rest => match all_ok rest with Some r => Some (x :: r) | None => None end
  end.

(** [getCalls(userId)]: the calls with [userId] as initiator or receiver. *)
Definition getCalls (userId : number) (s : mem) : option (list obj) :=
  all_ok (map (call_response s)
    (filter (fun call => orb (strict_eq_number (field call "initiatorId") userId)
                             (strict_eq_number (field call "receiverId") userId))
       (map snd (calls s)))).

(** GET /api/users/:userId/calls for the authenticated user [me]. *)
Definition getCallsRoute (me : Z) (userIdParam : string) (s : mem) : http :=
  let userId := str_to_number userIdParam in
  if negb (strict_eq_number (JNum me) userId) then HStatus 403 "Forbidden"
  else match getCalls userId s with
       | None => HStatus 500 "Internal server error"
       | Some cs => HJson 200 (JArr (map JObj cs))
       end.

End UserRoute.

End Langs.

(** Observations on the storage used by the statements below. *)
Module ServerView.
Import Relay Server Langs.

(** Every user key is an integer below the id counter. *)
Definition ids_below (s : mem) : Prop :=
  forall k u, In (k, u) (users s) -> exists z, k = NNum z /\ (z < currentUserId s)%Z.

(** No two stored users share a username, nor an email. *)
Fixpoint no_clash (key : string) (us : list obj) : Prop :=
  match us with
  | [] => True
  | u :: rest =>
      Forall (fun v => strict_eq (field v key) (field u key) = false) rest
      /\ no_clash key rest
  end.

Definition unique_logins (s : mem) : Prop :=
  no_clash "username" (map snd (users s)) /\ no_clash "email" (map snd (users s)).

(** Every stored call is an object with distinct property names. *)
Definition calls_wf (s : mem) : Prop :=
  forall k c, In (k, c) (calls s) -> NoDup (map fst c).

(** Each entry sits under the key [NNum z] of its own [id] [z], below the
    counter, and no key appears twice. *)
Definition langs_wf (ls : lstore) : Prop :=
  NoDup (map fst (userLanguages ls)) /\
  forall k l, In (k, l) (userLanguages ls) ->
    exists z, k = NNum z /\ (z < currentUserLanguageId ls)%Z /\ field l "id" = JNum z.

(** No user has the same language in two entries. *)
Definition langs_distinct (ls : lstore) : Prop :=
  forall k1 l1 k2 l2, In (k1, l1) (userLanguages ls) -> In (k2, l2) (userLanguages ls) ->
    k1 <> k2 -> field l1 "userId" = field l2 "userId" ->
    strict_eq (field l1 "language") (field l2 "language") = false.

End ServerView.

(** Sample requests and stores used by the examples below. *)
Module Samples.
Import Relay Server Langs.

(** A registration body. *)
Definition alice_data : obj :=
  [("username", JStr "alice"); ("password", JStr "secret");
   ("email", JStr "alice@example.com"); ("nativeLanguage", JStr "fr")].

(** A call of user 1 with user 2, and one of user 2 with user 1. *)
Definition call_1_2 : obj :=
  [("initiatorId", JNum 1); ("receiverId", JNum 2);
   ("initiatorLanguage", JStr "en"); ("receiverLanguage", JStr "es")].

Definition call_2_1 : obj :=
  [("initiatorId", JNum 2); ("receiverId", JNum 1);
   ("initiatorLanguage", JStr "es"); ("receiverLanguage", JStr "en")].

(** The sample store after user 1 called user 2 at time 0. *)
Definition store_with_call : mem := snd (createCall call_1_2 0 (memStorage 0)).

(** A language entry for user 1. *)
Definition german : obj :=
  [("language", JStr "de"); ("proficiency", JStr "beginner"); ("userId", JNum 1)].

(** A stand-in for [toISOString] in the examples. *)
Definition iso_stub (t : Z) : string := "1970-01-01T00:00:00.000Z".

End Samples.

(* ================================================================== *)
(** * Proofs *)

Module RelayFacts.
Import Relay RelayView.

Lemma number_eqb_eq (a b : number) : number_eqb a b = true <-> a = b.
Proof.
  destruct a as [x|p q|x|], b as [y|p' q'|y|]; simpl; split; intro H;
    try discriminate; try reflexivity.
  - apply Z.eqb_eq in H. now subst.
  - injection H as ->. apply Z.eqb_refl.
  - apply andb_prop in H as [H1 H2]. apply Z.eqb_eq in H1, H2. now subst.
  - injection H as -> ->. now rewrite !Z.eqb_refl.
  - apply Bool.eqb_prop in H. now subst.
  - injection H as ->. apply Bool.eqb_reflx.
Qed.

Lemma number_eqb_refl (a : number) : number_eqb a a = true.
Proof. now apply number_eqb_eq. Qed.

Ltac number_case a b :=
  let E := fresh "E" in
  destruct (number_eqb a b) eqn:E;
  [apply number_eqb_eq in E; subst | ].

Lemma number_eqb_sym (a b : number) : number_eqb a b = number_eqb b a.
Proof.
  destruct (number_eqb a b) eqn:E; symmetry.
  - apply number_eqb_eq in E. subst. apply number_eqb_refl.
  - destruct (number_eqb b a) eqn:F; [|reflexivity].
    apply number_eqb_eq in F. subst. now rewrite number_eqb_refl in E.
Qed.

Lemma lookup_app_single (k k' : number) (c : client) (m : clients) :
  lookup k (m ++ [(k', c)]) =
  match lookup k m with
  | Some c0 => Some c0
  | None => if number_eqb k k' then Some c else None
  end.
Proof.
  induction m as [|[k0 c0] m IH]; cbn [lookup app]; [reflexivity|].
  destruct (number_eqb k k0); [reflexivity | exact IH].
Qed.

Lemma lookup_update (k k' : number) (f : client -> client) (m : clients) :
  lookup k (update k' f m) =
  if number_eqb k k' then option_map f (lookup k m) else lookup k m.
Proof.
  induction m as [|[k0 c0] m IH]; cbn [lookup update].
  - destruct (number_eqb k k'); reflexivity.
  - destruct (number_eqb k' k0) eqn:E; cbn [lookup].
    + apply number_eqb_eq in E. subst k0.
      destruct (number_eqb k k'); reflexivity.
    + rewrite IH.
      destruct (number_eqb k k0) eqn:E1, (number_eqb k k') eqn:E2;
        try reflexivity.
      apply number_eqb_eq in E1, E2. subst. now rewrite number_eqb_refl in E.
Qed.

Lemma lookup_getOrCreate (k k' : number) (now : Z) (m : clients) :
  lookup k (getOrCreateClient k' now m) =
  match lookup k m with
  | Some c => Some c
  | None => if number_eqb k k' then Some (mkClient now []) else None
  end.
Proof.
  unfold getOrCreateClient, has.
  destruct (lookup k' m) eqn:Hk'.
  - destruct (lookup k m) eqn:Hk; [reflexivity|].
    number_case k k'; [congruence | reflexivity].
  - apply lookup_app_single.
Qed.

Lemma queue_of_getOrCreate (k k' : number) (now : Z) (m : clients) :
  queue_of k (getOrCreateClient k' now m) = queue_of k m.
Proof.
  unfold queue_of. rewrite lookup_getOrCreate.
  destruct (lookup k m); [reflexivity|].
  destruct (number_eqb k k'); reflexivity.
Qed.

Lemma lookup_getOrCreate_same (k : number) (now : Z) (m : clients) :
  lookup k (getOrCreateClient k now m) =
  Some (match lookup k m with Some c => c | None => mkClient now [] end).
Proof.
  rewrite lookup_getOrCreate, number_eqb_refl. destruct (lookup k m); reflexivity.
Qed.

(** The capped push keeps the last 100 messages of a queue that was
    within the bound. *)
Lemma push_capped_keep_last (x : jsval) (c : client) :
  (List.length (messages c) <= MAX_MESSAGES)%nat ->
  messages (push_capped x c) = keep_last MAX_MESSAGES (messages c ++ [x]).
Proof.
  intro Hlen. unfold push_capped, keep_last, MAX_MESSAGES in *; simpl.
  rewrite length_app; simpl.
  destruct (Nat.ltb 100 (List.length (messages c) + 1)) eqn:E.
  - apply Nat.ltb_lt in E.
    replace (List.length (messages c) + 1 - 100)%nat with 1%nat by lia.
    destruct (messages c ++ [x]); reflexivity.
  - apply Nat.ltb_ge in E.
    replace (List.length (messages c) + 1 - 100)%nat with 0%nat by lia.
    reflexivity.
Qed.

Lemma keep_last_length (n : nat) (l : list jsval) :
  (List.length (keep_last n l) <= n)%nat.
Proof. unfold keep_last. rewrite length_skipn. lia. Qed.

Lemma keep_last_small (n : nat) (l : list jsval) :
  (List.length l <= n)%nat -> keep_last n l = l.
Proof.
  intro H. unfold keep_last. replace (List.length l - n)%nat with 0%nat by lia.
  reflexivity.
Qed.

Lemma keep_last_keep_last (n : nat) (q r : list jsval) :
  keep_last n (keep_last n q ++ r) = keep_last n (q ++ r).
Proof.
  destruct (Nat.le_gt_cases (List.length q) n) as [Hq|Hq].
  - now rewrite (keep_last_small n q Hq).
  - unfold keep_last.
    rewrite !skipn_app, !length_app, skipn_skipn, !length_skipn.
    f_equal; f_equal; lia.
Qed.

Lemma keep_last_app_long (n : nat) (q r : list jsval) :
  (n <= List.length r)%nat -> keep_last n (q ++ r) = keep_last n r.
Proof.
  intro H. unfold keep_last. rewrite length_app, skipn_app.
  rewrite skipn_all2 by lia. simpl. f_equal. lia.
Qed.

Lemma run_cons_snd (e : event) (es : list event) (m : clients) :
  snd (run (e :: es) m) = snd (run es (snd (step e m))).
Proof.
  simpl. destruct (step e m) as [r m1]. simpl.
  destruct (run es m1). reflexivity.
Qed.

Lemma run_cons_fst (e : event) (es : list event) (m : clients) :
  fst (run (e :: es) m) = fst (step e m) :: fst (run es (snd (step e m))).
Proof.
  simpl. destruct (step e m) as [r m1]. simpl.
  destruct (run es m1). reflexivity.
Qed.

Lemma queue_of_send (k : number) (s : Z) (b : list (string * jsval)) (t : Z)
    (m : clients) :
  queue_of k (snd (send s b t m)) =
  if andb (accepted b) (number_eqb k (js_Number (field b "to")))
  then messages (push_capped (make_message (field b "type") s (field b "payload"))
                   (match lookup k m with Some c => c | None => mkClient t [] end))
  else queue_of k m.
Proof.
  unfold send, accepted, has_fields.
  destruct (truthy (field b "to")), (truthy (field b "type")); simpl;
    try reflexivity.
  destruct (js_Number_throws (field b "to")); simpl; [reflexivity|].
  unfold queue_of. rewrite lookup_update.
  number_case k (js_Number (field b "to")).
  - rewrite lookup_getOrCreate_same. reflexivity.
  - change (queue_of k (getOrCreateClient (js_Number (field b "to")) t m)
            = queue_of k m).
    apply queue_of_getOrCreate.
Qed.

Lemma queue_of_update_same_messages (k k' : number) (f : client -> client)
    (m : clients) :
  (forall c, messages (f c) = messages c) ->
  queue_of k (update k' f m) = queue_of k m.
Proof.
  intro Hf. unfold queue_of. rewrite lookup_update.
  destruct (number_eqb k k'); [|reflexivity].
  destruct (lookup k m); simpl; [apply Hf | reflexivity].
Qed.

Lemma queue_of_update_other (k k' : number) (f : client -> client) (m : clients) :
  number_eqb k k' = false -> queue_of k (update k' f m) = queue_of k m.
Proof. intro H. unfold queue_of. now rewrite lookup_update, H. Qed.

Lemma poll_result (u t : Z) (m : clients) :
  fst (poll u t m) = RMessages (queue_of (NNum u) m).
Proof.
  unfold poll, queue_of. simpl. rewrite lookup_getOrCreate_same.
  destruct (lookup (NNum u) m); reflexivity.
Qed.

Lemma poll_empties (u t : Z) (m : clients) :
  queue_of (NNum u) (snd (poll u t m)) = [].
Proof.
  unfold poll, queue_of. simpl. rewrite lookup_update, number_eqb_refl.
  rewrite lookup_getOrCreate_same. reflexivity.
Qed.

Lemma queue_of_step_quiet (k : number) (e : event) (m : clients) :
  quiet_for k e = true ->
  (List.length (queue_of k m) <= MAX_MESSAGES)%nat ->
  queue_of k (snd (step e m)) = keep_last MAX_MESSAGES (queue_of k m ++ delivered_to k [e]).
Proof.
  intros Hq Hlen. destruct e as [u t | s b t | u t | t]; simpl in Hq |- *.
  - unfold register. simpl.
    rewrite queue_of_update_same_messages by reflexivity.
    rewrite queue_of_getOrCreate, app_nil_r. now rewrite keep_last_small.
  - rewrite queue_of_send.
    destruct (andb (accepted b) (number_eqb k (js_Number (field b "to")))) eqn:E.
    + unfold queue_of in *. destruct (lookup k m);
        apply push_capped_keep_last; [exact Hlen | simpl; unfold MAX_MESSAGES; lia].
    + rewrite app_nil_r. now rewrite keep_last_small.
  - apply negb_true_iff in Hq. unfold poll. simpl.
    rewrite queue_of_update_other by exact Hq.
    rewrite queue_of_getOrCreate, app_nil_r. now rewrite keep_last_small.
  - discriminate.
Qed.

Lemma delivered_to_cons (k : number) (e : event) (es : list event) :
  delivered_to k (e :: es) = delivered_to k [e] ++ delivered_to k es.
Proof.
  destruct e; simpl; try reflexivity.
  destruct (andb _ _); reflexivity.
Qed.

(** Between two cleanups and two polls of [k], the queue of [k] is the
    last 100 of what it held followed by what was sent to [k]. *)
Lemma queue_of_run_quiet (k : number) (es : list event) (m : clients) :
  forallb (quiet_for k) es = true ->
  (List.length (queue_of k m) <= MAX_MESSAGES)%nat ->
  queue_of k (snd (run es m)) = keep_last MAX_MESSAGES (queue_of k m ++ delivered_to k es).
Proof.
  revert m. induction es as [|e es IH]; intros m Hq Hlen.
  - simpl. rewrite app_nil_r. now rewrite keep_last_small.
  - simpl in Hq. apply andb_prop in Hq as [He Hes].
    rewrite run_cons_snd, IH; [| exact Hes |].
    + rewrite (queue_of_step_quiet k e m He Hlen), keep_last_keep_last.
      rewrite (delivered_to_cons k e es), app_assoc. reflexivity.
    + rewrite (queue_of_step_quiet k e m He Hlen). apply keep_last_length.
Qed.

(** The bound on every queue is kept by every request and cleanup. *)
Lemma capped_update (k : number) (f : client -> client) (m : clients) :
  (forall c, List.length (messages c) <= MAX_MESSAGES ->
             List.length (messages (f c)) <= MAX_MESSAGES)%nat ->
  capped m -> capped (update k f m).
Proof.
  intros Hf Hm. induction Hm as [|[k0 c0] m Hc Hm IH]; simpl; [constructor|].
  simpl in Hc. destruct (number_eqb k k0); constructor; simpl; auto.
Qed.

Lemma capped_getOrCreate (k : number) (t : Z) (m : clients) :
  capped m -> capped (getOrCreateClient k t m).
Proof.
  intro Hm. unfold getOrCreateClient. destruct (has k m); [exact Hm|].
  apply Forall_app. split; [exact Hm|]. constructor; [simpl; unfold MAX_MESSAGES; lia|].
  constructor.
Qed.

Lemma capped_sweep (t : Z) (m : clients) : capped m -> capped (sweep t m).
Proof.
  intro Hm. unfold capped, sweep in *. rewrite Forall_forall in *.
  intros x Hx. apply filter_In in Hx as [Hx _]. now apply Hm.
Qed.

Lemma push_capped_length (x : jsval) (c : client) :
  (List.length (messages c) <= MAX_MESSAGES ->
   List.length (messages (push_capped x c)) <= MAX_MESSAGES)%nat.
Proof. intro H. rewrite push_capped_keep_last by exact H. apply keep_last_length. Qed.

Lemma capped_step (e : event) (m : clients) : capped m -> capped (snd (step e m)).
Proof.
  intro Hm. destruct e as [u t | s b t | u t | t]; simpl.
  - apply capped_update; [now intros c Hc | now apply capped_getOrCreate].
  - unfold send. destruct (orb _ _); simpl; [exact Hm|].
    destruct (js_Number_throws _); simpl; [exact Hm|].
    apply capped_update; [apply push_capped_length | now apply capped_getOrCreate].
  - apply capped_update; [intros; simpl; unfold MAX_MESSAGES; lia|].
    now apply capped_getOrCreate.
  - now apply capped_sweep.
Qed.

Lemma capped_run (es : list event) (m : clients) : capped m -> capped (snd (run es m)).
Proof.
  revert m. induction es as [|e es IH]; intros m Hm; [exact Hm|].
  rewrite run_cons_snd. apply IH, capped_step, Hm.
Qed.

Lemma capped_queue_of (k : number) (m : clients) :
  capped m -> (List.length (queue_of k m) <= MAX_MESSAGES)%nat.
Proof.
  intro Hm. unfold queue_of.
  induction Hm as [|[k0 c0] m Hc Hm IH]; simpl; [unfold MAX_MESSAGES; lia|].
  destruct (number_eqb k k0); auto.
Qed.

End RelayFacts.

Module RelayClaims.
Import Relay RelayView RelayFacts.

(** C1 (as stated, refuted): after a poll of user 2, 101 sends to user 2
    are not all returned by the next poll; only the last 100 are. *)
Lemma poll_fifo_counterexample :
  let es := repeat (ESend 1 ping_to_2 0) 101 in
  let m2 := snd (run es (snd (poll 2 0 []))) in
  fst (poll 2 1 m2) <> RMessages (delivered_to (NNum 2) es) /\
  resp_count (fst (poll 2 1 m2)) = 100%nat /\
  List.length (delivered_to (NNum 2) es) = 101%nat.
Proof.
  cbv zeta. split; [|split; vm_compute; reflexivity].
  intro H. apply (f_equal resp_count) in H. vm_compute in H. discriminate.
Qed.

(** C1 (amended): after a poll of user [u], let any sequence of requests
    follow that does not poll [u] and during which no cleanup runs. The
    next poll of [u] returns, in send order, the most recent 100 of the
    messages the accepted sends addressed to [u] (all of them when there
    are at most 100), and a second poll right after it returns []. *)
Theorem poll_returns_sent_in_order (m0 : clients) (u t0 t1 t2 : Z)
    (es : list event) :
  forallb (quiet_for (NNum u)) es = true ->
  let m2 := snd (run es (snd (poll u t0 m0))) in
  fst (poll u t1 m2) = RMessages (keep_last MAX_MESSAGES (delivered_to (NNum u) es)) /\
  ((List.length (delivered_to (NNum u) es) <= MAX_MESSAGES)%nat ->
   fst (poll u t1 m2) = RMessages (delivered_to (NNum u) es)) /\
  fst (poll u t2 (snd (poll u t1 m2))) = RMessages [].
Proof.
  intros Hq m2.
  assert (Hm2 : queue_of (NNum u) m2 =
                keep_last MAX_MESSAGES (delivered_to (NNum u) es)).
  { unfold m2. rewrite queue_of_run_quiet by
      (exact Hq || (rewrite poll_empties; simpl; unfold MAX_MESSAGES; lia)).
    now rewrite poll_empties. }
  split; [|split].
  - now rewrite poll_result, Hm2.
  - intro Hlen. rewrite poll_result, Hm2. now rewrite keep_last_small.
  - now rewrite poll_result, poll_empties.
Qed.

Lemma poll_returns_sent_in_order_witness :
  let es := [ESend 1 ping_to_2 5; ESend 3 [("to", JStr "2"); ("type", JStr "invite");
                                        ("payload", JObj [("channel", JStr "c")])] 6;
             ERegister 2 7; EPoll 1 8] in
  forallb (quiet_for (NNum 2)) es = true /\
  (let m2 := snd (run es (snd (poll 2 0 []))) in
   fst (poll 2 10 m2) = RMessages (keep_last MAX_MESSAGES (delivered_to (NNum 2) es)) /\
   ((List.length (delivered_to (NNum 2) es) <= MAX_MESSAGES)%nat ->
    fst (poll 2 10 m2) = RMessages (delivered_to (NNum 2) es)) /\
   fst (poll 2 11 (snd (poll 2 10 m2))) = RMessages []).
Proof.
  cbv zeta. split; [reflexivity|].
  apply (poll_returns_sent_in_order [] 2 0 10 11). reflexivity.
Defined.

(** C4 (as stated, refuted): user 2 is never polled and receives 101
    sends: 50 at time 0, which create its entry with [lastPoll] 0, and 51
    after the cleanup run at 300 001 ms, which removes that idle entry with
    its messages (sends do not update [lastPoll]). The queue of user 2 then
    holds 51 messages, not the 100 most recent. *)
Lemma queue_cap_counterexample :
  let es := repeat (ESend 1 ping_to_2 0) 50 ++ [ESweep 300001] ++
            repeat (ESend 1 ping_to_2 300002) 51 in
  List.length (delivered_to (NNum 2) es) = 101%nat /\
  List.length (queue_of (NNum 2) (snd (run es []))) = 51%nat /\
  List.length (queue_of (NNum 2) (snd (run es []))) <> MAX_MESSAGES.
Proof. cbv zeta. split; [|split]; vm_compute; [reflexivity | reflexivity | discriminate]. Qed.

(** C4 (amended): from any state in which every queue holds at most 100
    messages (the empty map, and every state the relay reaches), no
    sequence of requests or cleanup runs ever makes a queue longer than
    100; and more than 100 accepted sends to a key that is not polled,
    while no cleanup runs, leave exactly the 100 most recent of them in
    its queue, the oldest dropped first. *)
Theorem queue_keeps_last_100 (m : clients) (k : number) (es : list event) :
  capped m ->
  forallb (quiet_for k) es = true ->
  (MAX_MESSAGES < List.length (delivered_to k es))%nat ->
  queue_of k (snd (run es m)) = skipn (List.length (delivered_to k es) - MAX_MESSAGES)
                                     (delivered_to k es) /\
  List.length (queue_of k (snd (run es m))) = MAX_MESSAGES /\
  (forall es' k', (List.length (queue_of k' (snd (run es' m))) <= MAX_MESSAGES)%nat).
Proof.
  intros Hm Hq Hlong.
  assert (Hrun : queue_of k (snd (run es m)) =
                 keep_last MAX_MESSAGES (delivered_to k es)).
  { rewrite queue_of_run_quiet by (exact Hq || now apply capped_queue_of).
    apply keep_last_app_long. lia. }
  split; [|split].
  - exact Hrun.
  - rewrite Hrun. unfold keep_last. rewrite length_skipn. lia.
  - intros es' k'. apply capped_queue_of, capped_run, Hm.
Qed.

Lemma queue_keeps_last_100_witness :
  let es := repeat (ESend 1 ping_to_2 0) 101 in
  capped [] /\ forallb (quiet_for (NNum 2)) es = true /\
  (MAX_MESSAGES < List.length (delivered_to (NNum 2) es))%nat /\
  queue_of (NNum 2) (snd (run es [])) =
    skipn (List.length (delivered_to (NNum 2) es) - MAX_MESSAGES) (delivered_to (NNum 2) es) /\
  List.length (queue_of (NNum 2) (snd (run es []))) = MAX_MESSAGES /\
  (forall es' k', (List.length (queue_of k' (snd (run es' []))) <= MAX_MESSAGES)%nat).
Proof.
  cbv zeta.
  assert (Hc : capped []) by constructor.
  assert (Hq : forallb (quiet_for (NNum 2)) (repeat (ESend 1 ping_to_2 0) 101) = true)
    by reflexivity.
  assert (Hl : (MAX_MESSAGES < List.length (delivered_to (NNum 2)
                                  (repeat (ESend 1 ping_to_2 0) 101)))%nat)
    by (apply Nat.ltb_lt; reflexivity).
  split; [exact Hc|]. split; [exact Hq|]. split; [exact Hl|].
  exact (queue_keeps_last_100 [] (NNum 2) _ Hc Hq Hl).
Defined.

End RelayClaims.

Module RelayFacts2.
Import Relay RelayView RelayFacts.

Lemma lookup_not_in (k : number) (m : clients) :
  ~ In k (map fst m) -> lookup k m = None.
Proof.
  induction m as [|[k0 c0] m IH]; intro Hn; cbn [lookup]; [reflexivity|].
  simpl in Hn. destruct (number_eqb k k0) eqn:E.
  - apply number_eqb_eq in E. subst. exfalso. now apply Hn; left.
  - apply IH. intro H. apply Hn. now right.
Qed.

Lemma in_keys_lookup (k : number) (m : clients) :
  In k (map fst m) -> exists c, lookup k m = Some c.
Proof.
  induction m as [|[k0 c0] m IH]; intro Hin; [destruct Hin|].
  cbn [lookup]. destruct (number_eqb k k0) eqn:E; [now exists c0|].
  destruct Hin as [Hin|Hin]; [|now apply IH].
  simpl in Hin. subst. now rewrite number_eqb_refl in E.
Qed.

Lemma map_fst_update (k : number) (f : client -> client) (m : clients) :
  map fst (update k f m) = map fst m.
Proof.
  induction m as [|[k0 c0] m IH]; cbn [update map]; [reflexivity|].
  destruct (number_eqb k k0); simpl; now rewrite ?IH.
Qed.

Lemma in_keys_filter (k : number) (p : number * client -> bool) (m : clients) :
  In k (map fst (filter p m)) -> In k (map fst m).
Proof.
  induction m as [|kc m IH]; simpl; [auto|].
  destruct (p kc); simpl; intuition.
Qed.

Lemma keys_unique_app_new (m : clients) (k : number) (c : client) :
  keys_unique m -> lookup k m = None -> keys_unique (m ++ [(k, c)]).
Proof.
  unfold keys_unique. intros Hu Hl. rewrite map_app. simpl.
  apply NoDup_app; [exact Hu | repeat constructor; auto |].
  intros x Hx [Hy|[]]. subst. destruct (in_keys_lookup _ _ Hx) as [c' Hc'].
  congruence.
Qed.

Lemma keys_unique_step (e : event) (m : clients) :
  keys_unique m -> keys_unique (snd (step e m)).
Proof.
  intro Hu.
  assert (Hg : forall k t, keys_unique (getOrCreateClient k t m)).
  { intros k t. unfold getOrCreateClient, has.
    destruct (lookup k m) eqn:Hl; [exact Hu|]. now apply keys_unique_app_new. }
  unfold keys_unique in *.
  destruct e as [u t | s b t | u t | t]; simpl.
  - rewrite map_fst_update. apply Hg.
  - unfold send. destruct (orb _ _); simpl; [exact Hu|].
    destruct (js_Number_throws _); simpl; [exact Hu|].
    rewrite map_fst_update. apply Hg.
  - rewrite map_fst_update. apply Hg.
  - unfold sweep. clear Hg. induction m as [|kc m IH]; simpl; [constructor|].
    inversion Hu as [|x l Hx Hl]; subst.
    destruct (negb _); simpl; [|now apply IH].
    constructor; [|now apply IH].
    intro Hin. apply Hx. eapply in_keys_filter. exact Hin.
Qed.

Lemma keys_unique_run (es : list event) (m : clients) :
  keys_unique m -> keys_unique (snd (run es m)).
Proof.
  revert m. induction es as [|e es IH]; intros m Hu; [exact Hu|].
  rewrite run_cons_snd. apply IH, keys_unique_step, Hu.
Qed.

(** One cleanup run removes a stale entry, and keeps a live one. *)
Lemma sweep_lookup (k : number) (c : client) (now : Z) (m : clients) :
  keys_unique m -> lookup k m = Some c ->
  lookup k (sweep now m) =
  if Z.ltb STALE_MS (now - lastPoll c) then None else Some c.
Proof.
  intros Hu. unfold keys_unique, sweep in *.
  induction m as [|[k0 c0] m IH]; intro Hl; [discriminate|].
  inversion Hu as [|x l Hx Hl']; subst.
  cbn [lookup] in Hl. cbn [filter]. simpl snd.
  destruct (number_eqb k k0) eqn:E.
  - apply number_eqb_eq in E. subst k0. injection Hl as ->.
    destruct (Z.ltb STALE_MS (now - lastPoll c)); simpl.
    + apply lookup_not_in. intro Hin. apply Hx. eapply in_keys_filter. exact Hin.
    + now rewrite number_eqb_refl.
  - destruct (negb _); cbn [lookup]; [rewrite E|]; now apply IH.
Qed.

Lemma send_accepted (s : Z) (b : list (string * jsval)) (t : Z) (m : clients) :
  accepted b = true ->
  send s b t m =
  (RSuccess,
   update (js_Number (field b "to"))
     (push_capped (make_message (field b "type") s (field b "payload")))
     (getOrCreateClient (js_Number (field b "to")) t m)).
Proof.
  unfold accepted, has_fields, send. intro H.
  apply andb_prop in H as [H H3]. apply andb_prop in H as [H1 H2].
  apply negb_true_iff in H3. now rewrite H1, H2, H3.
Qed.

Lemma last_push_capped (x : jsval) (c : client) :
  last (messages (push_capped x c)) JUndef = x.
Proof.
  unfold push_capped. simpl.
  destruct (Nat.ltb MAX_MESSAGES (List.length (messages c ++ [x]))) eqn:E;
    [|apply last_last].
  destruct (messages c) as [|y l]; [discriminate|].
  simpl. apply last_last.
Qed.

Lemma obj_get_set (o : list (string * jsval)) (k key : string) (v : jsval) :
  obj_get (obj_set o k v) key = if String.eqb key k then Some v else obj_get o key.
Proof.
  induction o as [|[k' v'] o IH]; cbn [obj_set obj_get].
  - destruct (String.eqb key k); reflexivity.
  - destruct (String.eqb k k') eqn:E.
    + apply String.eqb_eq in E. subst k'. cbn [obj_get].
      destruct (String.eqb key k); reflexivity.
    + cbn [obj_get]. rewrite IH.
      destruct (String.eqb key k') eqn:E1, (String.eqb key k) eqn:E2;
        try reflexivity.
      apply String.eqb_eq in E1, E2. subst. now rewrite String.eqb_refl in E.
Qed.

Lemma obj_get_app (o1 o2 : list (string * jsval)) (key : string) :
  obj_get (o1 ++ o2) key =
  match obj_get o1 key with Some v => Some v | None => obj_get o2 key end.
Proof.
  induction o1 as [|[k v] o1 IH]; cbn [obj_get app]; [reflexivity|].
  destruct (String.eqb key k); [reflexivity | exact IH].
Qed.

(** Reading a field of [{ ...base, ...payload }] for an object payload: the
    payload's last binding of the key wins over [base]. *)
Lemma obj_get_spread (base fs : list (string * jsval)) (key : string) :
  obj_get (object_spread base (JObj fs)) key =
  match obj_get (rev fs) key with Some v => Some v | None => obj_get base key end.
Proof.
  unfold object_spread. simpl. revert base.
  induction fs as [|[k v] fs IH]; intro base; simpl; [reflexivity|].
  rewrite IH, obj_get_app, obj_get_set. simpl.
  destruct (obj_get (rev fs) key); [reflexivity|].
  destruct (String.eqb key k); reflexivity.
Qed.

End RelayFacts2.

Module RelayClaims2.
Import Relay RelayView RelayFacts RelayFacts2.

(** C5: in every state the relay reaches from the empty map, an entry whose
    [lastPoll] lies more than 5 minutes (300 000 ms) before a cleanup run is
    removed by that run together with its messages; with the cleanup firing
    every 60 000 ms from [t0], one of its runs does so within 6 minutes of
    [lastPoll]. A later register of that user, or an accepted send to it,
    creates a fresh entry: [{ lastPoll: now, messages: [] }] for register,
    and for a send the same with the one message it carries. *)
Theorem stale_entry_swept_and_recreated (es : list event) (k : number) (c : client)
    (now t0 : Z) :
  lookup k (snd (run es [])) = Some c ->
  (STALE_MS < now - lastPoll c)%Z ->
  (t0 <= lastPoll c)%Z ->
  let m := snd (run es []) in
  lookup k (sweep now m) = None /\
  (exists n, (sweep_time t0 n - lastPoll c <= STALE_MS + SWEEP_INTERVAL_MS)%Z /\
             lookup k (sweep (sweep_time t0 n) m) = None) /\
  (forall u t, k = NNum u ->
     lookup k (snd (register u t (sweep now m))) = Some (mkClient t [])) /\
  (forall s b t, accepted b = true -> js_Number (field b "to") = k ->
     lookup k (snd (send s b t (sweep now m))) =
     Some (mkClient t [make_message (field b "type") s (field b "payload")])).
Proof.
  intros Hl Hstale Ht0 m.
  assert (Hu : keys_unique m) by (apply keys_unique_run; constructor).
  assert (Hgone : forall now', (STALE_MS < now' - lastPoll c)%Z ->
                  lookup k (sweep now' m) = None).
  { intros now' H'. rewrite (sweep_lookup k c now' m Hu Hl).
    apply Z.ltb_lt in H'. now rewrite H'. }
  split; [now apply Hgone|]. split; [|split].
  - set (q := ((lastPoll c - t0) / SWEEP_INTERVAL_MS)%Z).
    assert (Hq : (0 <= q)%Z) by (apply Z.div_pos; unfold SWEEP_INTERVAL_MS; lia).
    pose proof (Z.div_mod (lastPoll c - t0) SWEEP_INTERVAL_MS) as Hdm.
    pose proof (Z.mod_pos_bound (lastPoll c - t0) SWEEP_INTERVAL_MS) as Hb.
    fold q in Hdm.
    exists (Z.to_nat q + 6)%nat. unfold sweep_time.
    rewrite Nat2Z.inj_add, Z2Nat.id by exact Hq.
    unfold STALE_MS, SWEEP_INTERVAL_MS in *.
    specialize (Hb ltac:(lia)). specialize (Hdm ltac:(lia)).
    split; [lia|]. apply Hgone. unfold STALE_MS. lia.
  - intros u t ->. unfold register. simpl.
    rewrite lookup_update, number_eqb_refl, lookup_getOrCreate_same.
    rewrite (Hgone now Hstale). reflexivity.
  - intros s b t Hacc Hto. rewrite send_accepted by exact Hacc. simpl.
    rewrite Hto, lookup_update, number_eqb_refl, lookup_getOrCreate_same.
    rewrite (Hgone now Hstale). reflexivity.
Qed.

Lemma stale_entry_swept_and_recreated_witness :
  let es := [ERegister 7 1000; ESend 1 [("to", JNum 7); ("type", JStr "ping")] 2000] in
  lookup (NNum 7) (snd (run es [])) = Some (mkClient 1000 [make_message (JStr "ping") 1 JUndef]) /\
  (STALE_MS < 400000 - 1000)%Z /\ (0 <= 1000)%Z /\
  (let m := snd (run es []) in
   lookup (NNum 7) (sweep 400000 m) = None /\
   (exists n, (sweep_time 0 n - 1000 <= STALE_MS + SWEEP_INTERVAL_MS)%Z /\
              lookup (NNum 7) (sweep (sweep_time 0 n) m) = None) /\
   (forall u t, NNum 7 = NNum u ->
      lookup (NNum 7) (snd (register u t (sweep 400000 m))) = Some (mkClient t [])) /\
   (forall s b t, accepted b = true -> js_Number (field b "to") = NNum 7 ->
      lookup (NNum 7) (snd (send s b t (sweep 400000 m))) =
      Some (mkClient t [make_message (field b "type") s (field b "payload")]))).
Proof.
  cbv zeta.
  assert (Hl : lookup (NNum 7) (snd (run [ERegister 7 1000;
             ESend 1 [("to", JNum 7); ("type", JStr "ping")] 2000] [])) =
           Some (mkClient 1000 [make_message (JStr "ping") 1 JUndef]))
    by reflexivity.
  assert (Hs : (STALE_MS < 400000 - 1000)%Z) by (unfold STALE_MS; lia).
  assert (H0 : (0 <= 1000)%Z) by lia.
  split; [exact Hl|]. split; [exact Hs|]. split; [exact H0|].
  exact (stale_entry_swept_and_recreated _ (NNum 7) _ 400000 0 Hl Hs H0).
Defined.

(** C6 (as stated, refuted): bodies whose "to" and "type" are both present
    are rejected: with 400 when "type" is the empty string, and with 500
    when "to" is an object with its own "toString" property, on which
    [Number(to)] throws. *)
Lemma send_rejects_present_fields :
  let b := [("to", JNum 2); ("type", JStr ""); ("payload", JNull)] in
  let b' := [("to", JObj [("toString", JNum 1)]); ("type", JStr "ping")] in
  obj_get b "to" = Some (JNum 2) /\ obj_get b "type" = Some (JStr "") /\
  send 1 b 0 [] = (RStatus 400 "Missing required fields", []) /\
  truthy (field b' "to") = true /\ truthy (field b' "type") = true /\
  send 1 b' 0 [] = (RStatus 500 "Failed to send message", []).
Proof. repeat split. Qed.

(** C6 (amended): the send handler answers 400 "Missing required fields",
    leaving the map unchanged, exactly when [to] or [type] is falsy
    (absent, [null], [false], [0] or ""). A body with both fields truthy
    is answered 500 "Failed to send message", the map unchanged as well,
    when [Number(to)] throws ([to] an object, or an array holding one, with
    its own "toString" property); every other body succeeds. The handler
    is a synchronous function of the request and the map. *)
Theorem send_validation (s : Z) (b : list (string * jsval)) (t : Z) (m : clients) :
  (has_fields b = false -> send s b t m = (RStatus 400 "Missing required fields", m)) /\
  (has_fields b = false <->
   truthy (field b "to") = false \/ truthy (field b "type") = false) /\
  (has_fields b = true -> js_Number_throws (field b "to") = true ->
   send s b t m = (RStatus 500 "Failed to send message", m)) /\
  (has_fields b = true -> js_Number_throws (field b "to") = false ->
   fst (send s b t m) = RSuccess).
Proof.
  unfold has_fields, send. split; [|split; [|split]].
  - intro H.
    destruct (truthy (field b "to")), (truthy (field b "type")); simpl in *;
      try discriminate; reflexivity.
  - destruct (truthy (field b "to")), (truthy (field b "type")); simpl;
      intuition discriminate.
  - intros H Ht. apply andb_prop in H as [H1 H2]. now rewrite H1, H2, Ht.
  - intros H Ht. apply andb_prop in H as [H1 H2]. now rewrite H1, H2, Ht.
Qed.

(** C7 (as stated, refuted): for A = 1 sending
    [{to: 2, type: "invite", payload: {channel: "call-123"}}], B = 2 polls
    [{type: "invite", from: 1, channel: "call-123"}]: the sender is under
    "from" and the payload is not nested. *)
Lemma invite_message_shape :
  let m := snd (send 1 invite_to_2 0 []) in
  fst (poll 2 5 m) =
    RMessages [JObj [("type", JStr "invite"); ("from", JNum 1);
                     ("channel", JStr "call-123")]] /\
  fst (poll 2 5 m) <>
    RMessages [JObj [("type", JStr "invite"); ("fromUserId", JNum 1);
                     ("payload", JObj [("channel", JStr "call-123")])]].
Proof.
  cbv zeta. split; [reflexivity|]. vm_compute. discriminate.
Qed.

(** C7 (amended): an accepted send appends to the recipient's queue
    (keeping its last 100 entries), and the recipient's next poll returns,
    the object [{ type, from: senderId, ...payload }]: the sender is under
    "from", and an object payload's own fields sit at the top level, where
    a payload field named "type" or "from" replaces the value before it. *)
Theorem send_appends_spread_message (s : Z) (b : list (string * jsval)) (t t' : Z)
    (m : clients) (u : Z) :
  accepted b = true ->
  js_Number (field b "to") = NNum u ->
  capped m ->
  let msg := make_message (field b "type") s (field b "payload") in
  fst (poll u t' (snd (send s b t m))) =
    RMessages (keep_last MAX_MESSAGES (queue_of (NNum u) m ++ [msg])) /\
  (forall fs key, field b "payload" = JObj fs ->
     obj_get (fields_of msg) key =
     match obj_get (rev fs) key with
     | Some v => Some v
     | None => obj_get [("type", field b "type"); ("from", JNum s)] key
     end).
Proof.
  intros Hacc Hto Hm msg. split.
  - rewrite poll_result, queue_of_send. unfold accepted in *.
    rewrite Hacc, Hto, number_eqb_refl. cbn [andb]. f_equal.
    pose proof (capped_queue_of (NNum u) m Hm) as Hlen. unfold queue_of in *.
    destruct (lookup (NNum u) m); apply push_capped_keep_last;
      [exact Hlen | simpl; unfold MAX_MESSAGES; lia].
  - intros fs key Hp. unfold msg, make_message. rewrite Hp. simpl fields_of.
    apply obj_get_spread.
Qed.

Lemma send_appends_spread_message_witness :
  accepted invite_to_2 = true /\ js_Number (field invite_to_2 "to") = NNum 2 /\
  capped [] /\
  (let msg := make_message (field invite_to_2 "type") 1 (field invite_to_2 "payload") in
   fst (poll 2 9 (snd (send 1 invite_to_2 0 []))) =
     RMessages (keep_last MAX_MESSAGES (queue_of (NNum 2) [] ++ [msg])) /\
   (forall fs key, field invite_to_2 "payload" = JObj fs ->
      obj_get (fields_of msg) key =
      match obj_get (rev fs) key with
      | Some v => Some v
      | None => obj_get [("type", field invite_to_2 "type"); ("from", JNum 1)] key
      end)).
Proof.
  assert (Ha : accepted invite_to_2 = true) by reflexivity.
  assert (Ht : js_Number (field invite_to_2 "to") = NNum 2) by reflexivity.
  assert (Hc : capped []) by constructor.
  split; [exact Ha|]. split; [exact Ht|]. split; [exact Hc|].
  exact (send_appends_spread_message 1 invite_to_2 0 9 [] 2 Ha Ht Hc).
Defined.

(** C10: when the payload of an accepted send (the fields are present and
    [Number(to)] returns, so the handler answers with success) is an object
    whose fields bind a key (such as "from" or "type"), the message
    delivered to the recipient (the last of its queue) carries the
    payload's value for that key, whatever the authenticated sender and the
    supplied type were. *)
Theorem payload_overrides_sender (s : Z) (b : list (string * jsval)) (t : Z)
    (m : clients) (fs : list (string * jsval)) (key : string) (v : jsval) :
  accepted b = true ->
  field b "payload" = JObj fs ->
  obj_get (rev fs) key = Some v ->
  fst (send s b t m) = RSuccess /\
  obj_get (fields_of (last (queue_of (js_Number (field b "to")) (snd (send s b t m)))
                        JUndef)) key = Some v.
Proof.
  intros Hacc Hp Hv. split; [now rewrite send_accepted|].
  rewrite queue_of_send. unfold accepted in *.
  rewrite Hacc, number_eqb_refl. cbn [andb]. rewrite last_push_capped.
  unfold make_message. rewrite Hp. simpl fields_of. now rewrite obj_get_spread, Hv.
Qed.

Lemma payload_overrides_sender_witness :
  let b := [("to", JNum 2); ("type", JStr "invite");
            ("payload", JObj [("from", JNum 99); ("channel", JStr "x")])] in
  accepted b = true /\
  field b "payload" = JObj [("from", JNum 99); ("channel", JStr "x")] /\
  obj_get (rev [("from", JNum 99); ("channel", JStr "x")]) "from" = Some (JNum 99) /\
  fst (send 1 b 0 []) = RSuccess /\
  obj_get (fields_of (last (queue_of (js_Number (field b "to")) (snd (send 1 b 0 [])))
                        JUndef)) "from" = Some (JNum 99) /\
  JNum 99 <> JNum 1.
Proof.
  cbv zeta.
  assert (H1 : accepted [("to", JNum 2); ("type", JStr "invite");
            ("payload", JObj [("from", JNum 99); ("channel", JStr "x")])] = true)
    by reflexivity.
  assert (H2 : field [("to", JNum 2); ("type", JStr "invite");
            ("payload", JObj [("from", JNum 99); ("channel", JStr "x")])] "payload"
               = JObj [("from", JNum 99); ("channel", JStr "x")]) by reflexivity.
  assert (H3 : obj_get (rev [("from", JNum 99); ("channel", JStr "x")]) "from"
               = Some (JNum 99)) by reflexivity.
  split; [exact H1|]. split; [exact H2|]. split; [exact H3|].
  destruct (payload_overrides_sender 1 _ 0 [] _ "from" (JNum 99) H1 H2 H3) as [Hs Hf].
  split; [exact Hs|]. split; [exact Hf|]. discriminate.
Defined.

End RelayClaims2.

Module CallClaims.
Import Call CallView.

(** C2 (as stated, refuted): the remote participant's video arriving marks
    the page connected but starts no timer, and when the timer already runs
    (started by the local join) that transition does not reset it. *)
Lemma remote_join_does_not_start_timer :
  let a1 := page_run [RemoteUserJoined true; Tick; Tick] initial_app in
  let a2 := page_run [LocalUserJoined; Tick; Tick; Tick; RemoteUserJoined true]
              initial_app in
  isConnected (ui a1) = true /\ timerActive (ui a1) = false /\
  callDuration (ui a1) = 0%nat /\
  isConnected (ui a2) = true /\ callDuration (ui a2) = 3%nat.
Proof. repeat split. Qed.

(** C2 (amended): the duration timer is (re)started with the elapsed
    seconds reset to 0 exactly by the RTC client's local-user-joined
    callback (after the local user has joined and published), whether or not
    the page is connected; the remote participant's video arriving neither
    starts nor resets it; no other event starts a stopped timer; and each
    tick of a running timer adds one second. *)
Theorem timer_starts_on_local_join (a : app) :
  (timerActive (ui (page_step LocalUserJoined a)) = true /\
   callDuration (ui (page_step LocalUserJoined a)) = 0%nat /\
   isConnected (ui (page_step LocalUserJoined a)) = isConnected (ui a)) /\
  (forall hv, timerActive (ui (page_step (RemoteUserJoined hv) a)) = timerActive (ui a) /\
              callDuration (ui (page_step (RemoteUserJoined hv) a)) = callDuration (ui a)) /\
  (forall e, e <> LocalUserJoined -> timerActive (ui a) = false ->
             timerActive (ui (page_step e a)) = false) /\
  (timerActive (ui a) = true ->
   callDuration (ui (page_step Tick a)) = S (callDuration (ui a))).
Proof.
  destruct a as [[conn dur act joined loc] p]. split; [|split; [|split]].
  - repeat split.
  - intro hv. destruct hv; split; reflexivity.
  - intros e He Hoff. simpl in Hoff. subst act.
    destruct e as [hv| | | | | |]; simpl; try reflexivity.
    + destruct hv; reflexivity.
    + now destruct He.
  - intro Hon. simpl in Hon. subst act. reflexivity.
Qed.

Lemma timer_starts_on_local_join_witness :
  let a := page_run [LocalUserJoined; Tick] initial_app in
  (timerActive (ui (page_step LocalUserJoined a)) = true /\
   callDuration (ui (page_step LocalUserJoined a)) = 0%nat /\
   isConnected (ui (page_step LocalUserJoined a)) = isConnected (ui a)) /\
  (forall hv, timerActive (ui (page_step (RemoteUserJoined hv) a)) = timerActive (ui a) /\
              callDuration (ui (page_step (RemoteUserJoined hv) a)) = callDuration (ui a)) /\
  (forall e, e <> LocalUserJoined -> timerActive (ui a) = false ->
             timerActive (ui (page_step e a)) = false) /\
  (timerActive (ui a) = true ->
   callDuration (ui (page_step Tick a)) = S (callDuration (ui a))).
Proof. cbv zeta. apply timer_starts_on_local_join. Defined.

(** C3 (as stated, refuted): with no call in progress (phase Idle),
    [addMessage] still appends to the transcript. *)
Lemma add_message_while_idle :
  phase_of initial_provider = Idle /\
  transcript (addMessage hello 0 initial_provider) =
    [mkMessage "msg-0" alice "hello" None 5] /\
  transcript (addMessage hello 0 initial_provider) <> transcript initial_provider.
Proof. repeat split. discriminate. Qed.

Lemma add_all_cons (mt : partial_message * Z) (ms : list (partial_message * Z))
    (p : provider) :
  add_all (mt :: ms) p = add_all ms (addMessage (fst mt) (snd mt) p).
Proof. reflexivity. Qed.

Lemma add_message_valid (m : partial_message) (now : Z) (p : provider) :
  valid_partial m = true ->
  map entry_view (transcript (addMessage m now p)) =
  map entry_view (transcript p) ++
  match expected_entry m now with Some x => [x] | None => [] end.
Proof.
  unfold valid_partial, addMessage, expected_entry.
  destruct (p_sender m), (p_text m) as [t|]; try discriminate.
  destruct (String.eqb t ""); [discriminate|]. intros _.
  simpl. rewrite map_app. reflexivity.
Qed.

(** C3 (amended): [addMessage] is not phase-guarded. In every phase it
    leaves the phase unchanged; a call whose sender or text is missing or
    empty leaves the provider unchanged; and a sequence of calls with a
    sender and non-empty text appends one entry per call, in call order,
    each with the given sender, text and translation and with the given
    timestamp (the current time when none is given). *)
Theorem add_message_appends_in_any_phase (p : provider) (m : partial_message) (now : Z)
    (ms : list (partial_message * Z)) :
  phase_of (addMessage m now p) = phase_of p /\
  (valid_partial m = false -> addMessage m now p = p) /\
  (forallb (fun mt => valid_partial (fst mt)) ms = true ->
   map entry_view (transcript (add_all ms p)) =
   map entry_view (transcript p) ++
   flat_map (fun mt => match expected_entry (fst mt) (snd mt) with
                       | Some x => [x] | None => [] end) ms).
Proof.
  split; [|split].
  - unfold addMessage, phase_of.
    destruct (p_sender m), (p_text m) as [t|]; try reflexivity.
    destruct (String.eqb t ""); reflexivity.
  - unfold valid_partial, addMessage.
    destruct (p_sender m), (p_text m) as [t|]; try reflexivity.
    now destruct (String.eqb t "").
  - revert p. induction ms as [|mt ms IH]; intros p Hv.
    + simpl. now rewrite app_nil_r.
    + simpl in Hv. apply andb_prop in Hv as [Hmt Hms].
      rewrite add_all_cons, IH by exact Hms.
      rewrite add_message_valid by exact Hmt.
      simpl. now rewrite app_assoc.
Qed.

Lemma add_message_appends_in_any_phase_witness :
  let ms := [(hello, 10%Z); (mkPartial (Some (mkUser 2)) (Some "hola") (Some "hi") None, 20%Z)] in
  phase_of (addMessage hello 0 initial_provider) = phase_of initial_provider /\
  (valid_partial hello = false -> addMessage hello 0 initial_provider = initial_provider) /\
  (forallb (fun mt => valid_partial (fst mt)) ms = true ->
   map entry_view (transcript (add_all ms initial_provider)) =
   map entry_view (transcript initial_provider) ++
   flat_map (fun mt => match expected_entry (fst mt) (snd mt) with
                       | Some x => [x] | None => [] end) ms).
Proof. cbv zeta. apply add_message_appends_in_any_phase. Defined.

(** C8: from every state, ending the call ([handleEndCall], run by the
    end-call button and by the remote-user-left callback) leaves the RTC
    channel, stops the duration timer, empties the transcript and puts the
    provider in phase Idle; ending again from there changes nothing in the
    session state (it only shows the "Call ended" toast once more). *)
Theorem end_call_idempotent (a : app) :
  let a1 := handleEndCall a in
  page_step EndCallClicked a = a1 /\
  phase_of (ctx a1) = Idle /\ rtcJoined (ui a1) = false /\
  timerActive (ui a1) = false /\ transcript (ctx a1) = [] /\
  session_state (handleEndCall a1) = session_state a1 /\
  phase_of (ctx (handleEndCall a1)) = Idle /\
  toasts (ctx (handleEndCall a1)) = toasts (ctx a1) ++ ["Call ended"] /\
  phase_of (ctx (page_step RemoteUserLeft a)) = Idle.
Proof.
  destruct a as [[conn dur act joined loc] p]. repeat split.
Qed.

End CallClaims.

Module TranscriptionClaims.
Import Transcription TranscriptionView.

Lemma checkResult_done (service : nat -> result) (s : poll_state) :
  is_pending s = false -> checkResult service s = s.
Proof. destruct s; simpl; congruence. Qed.

Lemma run_checks_done (n : nat) (service : nat -> result) (s : poll_state) :
  is_pending s = false -> run_checks n service s = s.
Proof.
  revert s. induction n as [|n IH]; intros s Hs; [reflexivity|].
  simpl. rewrite checkResult_done by exact Hs. now apply IH.
Qed.

Lemma run_checks_S_r (n : nat) (service : nat -> result) (s : poll_state) :
  run_checks (S n) service s = checkResult service (run_checks n service s).
Proof.
  revert s. induction n as [|n IH]; intro s; [reflexivity|].
  change (run_checks (S (S n)) service s)
    with (run_checks (S n) service (checkResult service s)).
  now rewrite IH.
Qed.

Lemma run_checks_add (a b : nat) (service : nat -> result) (s : poll_state) :
  run_checks (a + b) service s = run_checks b service (run_checks a service s).
Proof.
  revert s. induction a as [|a IH]; intro s; [reflexivity|].
  simpl. apply IH.
Qed.

Lemma checkResult_well_formed (service : nat -> result) (s : poll_state) :
  well_formed s -> well_formed (checkResult service s).
Proof.
  destruct s as [a w|t a w|e a w]; [|intro H; exact H|intro H; exact H].
  intros [Ha Hw]. cbn [checkResult].
  destruct (service (S a)) as [t| |e].
  - destruct (negb (String.eqb t "")).
    + cbn [well_formed]. unfold maxAttempts, RETRY_DELAY_MS in *. split; lia.
    + destruct (Nat.leb maxAttempts (S a)) eqn:E; cbn [well_formed];
        [apply Nat.leb_le in E | apply Nat.leb_gt in E];
        unfold maxAttempts, RETRY_DELAY_MS in *; split; lia.
  - destruct (Nat.leb maxAttempts (S a)) eqn:E; cbn [well_formed];
      [apply Nat.leb_le in E | apply Nat.leb_gt in E];
      unfold maxAttempts, RETRY_DELAY_MS in *; split; lia.
  - cbn [well_formed]. unfold maxAttempts, RETRY_DELAY_MS in *. split; lia.
Qed.

Lemma run_checks_well_formed (n : nat) (service : nat -> result) (s : poll_state) :
  well_formed s -> well_formed (run_checks n service s).
Proof.
  revert s. induction n as [|n IH]; intros s Hs; [exact Hs|].
  simpl. apply IH, checkResult_well_formed, Hs.
Qed.

Lemma polling_finishes (service : nat -> result) (n a : nat) (w : Z) :
  (maxAttempts <= a + n)%nat -> well_formed (Polling a w) ->
  is_pending (run_checks n service (Polling a w)) = false.
Proof.
  revert a w. induction n as [|n IH]; intros a w Hn Hwf.
  - simpl in Hwf. lia.
  - cbn [run_checks]. destruct (checkResult service (Polling a w)) as [a' w'|t a' w'|e a' w'] eqn:E.
    + assert (Hwf' : well_formed (Polling a' w')).
      { rewrite <- E. now apply checkResult_well_formed. }
      cbn [checkResult] in E.
      assert (a' = S a).
      { destruct (service (S a)) as [t| |e];
          [destruct (negb (String.eqb t "")) |  | ];
          try destruct (Nat.leb maxAttempts (S a)); congruence. }
      subst a'. apply IH; [unfold maxAttempts in *; lia | exact Hwf'].
    + now rewrite run_checks_done.
    + now rewrite run_checks_done.
Qed.

Lemma pending_prefix (service : nat -> result) (k : nat) :
  (k < maxAttempts)%nat ->
  (forall i, (1 <= i <= k)%nat -> pending_like (service i) = true) ->
  run_checks k service start = Polling k (RETRY_DELAY_MS * Z.of_nat k).
Proof.
  induction k as [|k IH]; intros Hk Hp; [reflexivity|].
  rewrite run_checks_S_r, IH; [| unfold maxAttempts in *; lia |].
  - cbn [checkResult].
    assert (Hs : pending_like (service (S k)) = true) by (apply Hp; lia).
    unfold maxAttempts in Hk.
    assert (E : Nat.leb maxAttempts (S k) = false)
      by (apply Nat.leb_gt; unfold maxAttempts; lia).
    destruct (service (S k)) as [t| |e]; simpl in Hs; try discriminate.
    + apply String.eqb_eq in Hs. subst t. rewrite String.eqb_refl. cbn [negb].
      rewrite E. f_equal. unfold RETRY_DELAY_MS. lia.
    + rewrite E. f_equal. unfold RETRY_DELAY_MS. lia.
  - intros i Hi. apply Hp. lia.
Qed.

Lemma timeout_when_pending (service : nat -> result) :
  (forall i, (1 <= i <= maxAttempts)%nat -> pending_like (service i) = true) ->
  run_checks maxAttempts service start =
    Rejected "Transcription timed out" maxAttempts (RETRY_DELAY_MS * 29).
Proof.
  intro Hp. change maxAttempts with (S 29) at 1.
  rewrite run_checks_S_r, pending_prefix;
    [| unfold maxAttempts; lia | intros i Hi; apply Hp; unfold maxAttempts in *; lia].
  cbn [checkResult].
  assert (Hs : pending_like (service 30%nat) = true)
    by (apply Hp; unfold maxAttempts; lia).
  assert (E : Nat.leb maxAttempts 30 = true) by reflexivity.
  destruct (service 30%nat) as [t| |e]; cbn [pending_like] in Hs; try discriminate.
  - apply String.eqb_eq in Hs. subst t. rewrite String.eqb_refl. cbn [negb].
    rewrite E. reflexivity.
  - rewrite E. reflexivity.
Qed.

(** C9: whatever the transcription service answers, [checkResult] runs at
    most 30 times: after 30 runs the promise is settled and no further
    run happens; the time spent waiting is 2 000 ms between consecutive
    attempts (58 000 ms over 30 attempts); and when none of the 30 answers
    is a (non-empty) text or an error, the promise is rejected with
    "Transcription timed out" after exactly 30 attempts. *)
Theorem transcription_polling_bounded (service : nat -> result) :
  let s := run_checks maxAttempts service start in
  is_pending s = false /\
  (1 <= attempts_of s <= maxAttempts)%nat /\
  waited_of s = (RETRY_DELAY_MS * Z.of_nat (attempts_of s - 1))%Z /\
  (forall n, run_checks (maxAttempts + n) service start = s) /\
  ((forall i, (1 <= i <= maxAttempts)%nat -> pending_like (service i) = true) ->
   s = Rejected "Transcription timed out" maxAttempts (RETRY_DELAY_MS * 29)).
Proof.
  assert (Hstart : well_formed start)
    by (cbn [well_formed start]; unfold maxAttempts; lia).
  pose proof (run_checks_well_formed maxAttempts service start Hstart) as Hwf.
  assert (Hdone : is_pending (run_checks maxAttempts service start) = false)
    by exact (polling_finishes service maxAttempts 0 0 (le_n _) Hstart).
  assert (Hfix : forall n, run_checks (maxAttempts + n) service start =
                           run_checks maxAttempts service start).
  { intro n. rewrite run_checks_add. exact (run_checks_done n service _ Hdone). }
  pose proof (timeout_when_pending service) as Htime.
  cbv zeta. revert Hwf Hdone Hfix Htime.
  generalize (run_checks maxAttempts service start) as s.
  intros s Hwf Hdone Hfix Htime.
  split; [exact Hdone|]. split; [|split; [|split]]; [| |exact Hfix|exact Htime].
  - destruct s; cbn [well_formed is_pending attempts_of] in *; [discriminate|tauto|tauto].
  - destruct s; cbn [well_formed is_pending attempts_of waited_of] in *;
      [discriminate|tauto|tauto].
Qed.

Lemma transcription_polling_bounded_witness :
  (forall i, (1 <= i <= maxAttempts)%nat -> pending_like (always_processing i) = true) /\
  run_checks maxAttempts always_processing start =
    Rejected "Transcription timed out" maxAttempts (RETRY_DELAY_MS * 29).
Proof.
  assert (Hp : forall i, (1 <= i <= maxAttempts)%nat ->
                         pending_like (always_processing i) = true)
    by reflexivity.
  split; [exact Hp|].
  apply (transcription_polling_bounded always_processing). exact Hp.
Defined.

End TranscriptionClaims.

Module DecimalFacts.

Lemma digit_val_digit_char (d : nat) :
  (d < 10)%nat -> digit_val (digit_char d) = Some (Z.of_nat d).
Proof.
  intro Hd. unfold digit_val, digit_char.
  rewrite nat_ascii_embedding by lia.
  replace (Nat.leb 48 (48 + d)) with true by (symmetry; apply Nat.leb_le; lia).
  replace (Nat.leb (48 + d) 57) with true by (symmetry; apply Nat.leb_le; lia).
  simpl. f_equal. f_equal. lia.
Qed.

Lemma list_ascii_app (s1 s2 : string) :
  list_ascii_of_string (s1 ++ s2) = list_ascii_of_string s1 ++ list_ascii_of_string s2.
Proof. induction s1 as [|c s1 IH]; simpl; [reflexivity | now rewrite IH]. Qed.

(** The decimal rendering is a non-empty list of digits whose value is the
    number. *)
Lemma nat_to_string_aux_digits (fuel n : nat) (acc : string) :
  (n < fuel)%nat ->
  exists ds, ds <> [] /\ (forall d, In d ds -> d < 10)%nat /\
    list_ascii_of_string (nat_to_string_aux fuel n acc) =
      map digit_char ds ++ list_ascii_of_string acc /\
    forall a rest, digits_value a (map digit_char ds ++ rest) =
      digits_value (a * 10 ^ Z.of_nat (List.length ds) + Z.of_nat n) rest.
Proof.
  revert n acc. induction fuel as [|fuel IH]; intros n acc Hn; [lia|].
  cbn [nat_to_string_aux].
  assert (Hr : (Nat.modulo n 10 < 10)%nat) by (apply Nat.mod_upper_bound; lia).
  assert (Hdm := Nat.div_mod_eq n 10).
  destruct (Nat.ltb n 10) eqn:E.
  - apply Nat.ltb_lt in E.
    exists [Nat.modulo n 10]. repeat split.
    + discriminate.
    + intros d [<-|[]]. exact Hr.
    + intros a rest. cbn [map app digits_value].
      rewrite digit_val_digit_char by exact Hr.
      rewrite Nat.mod_small by exact E. f_equal; simpl; lia.
  - apply Nat.ltb_ge in E.
    destruct (IH (Nat.div n 10) (String (digit_char (Nat.modulo n 10)) acc))
      as [ds [Hne [Hdig [Hl Hv]]]].
    { assert (Nat.div n 10 < n)%nat by (apply Nat.div_lt; lia). lia. }
    exists (ds ++ [Nat.modulo n 10]). repeat split.
    + destruct ds; simpl; discriminate.
    + intros d Hd. apply in_app_or in Hd as [Hd|[<-|[]]]; [now apply Hdig | exact Hr].
    + rewrite Hl, map_app. simpl. now rewrite <- app_assoc.
    + intros a rest. rewrite map_app, <- app_assoc. cbn [app map]. rewrite Hv.
      cbn [digits_value]. rewrite digit_val_digit_char by exact Hr.
      f_equal. rewrite length_app. cbn [List.length].
      rewrite Nat2Z.inj_add, Z.pow_add_r by lia.
      assert (Hz : (Z.of_nat n = 10 * Z.of_nat (Nat.div n 10) + Z.of_nat (Nat.modulo n 10))%Z)
        by (rewrite Hdm at 1; lia).
      rewrite Hz. change (10 ^ Z.of_nat 1)%Z with 10%Z. ring.
Qed.

Lemma nat_to_string_digits (n : nat) :
  exists ds, ds <> [] /\ (forall d, In d ds -> d < 10)%nat /\
    list_ascii_of_string (nat_to_string n) = map digit_char ds /\
    forall a rest, digits_value a (map digit_char ds ++ rest) =
      digits_value (a * 10 ^ Z.of_nat (List.length ds) + Z.of_nat n) rest.
Proof.
  destruct (nat_to_string_aux_digits (S n) n "" (Nat.lt_succ_diag_r n))
    as [ds [Hne [Hd [Hl Hv]]]].
  exists ds. repeat split; try assumption. unfold nat_to_string. rewrite Hl. apply app_nil_r.
Qed.

Lemma digits_value_nat_to_string (n : nat) :
  digits_value 0 (list_ascii_of_string (nat_to_string n)) = Some (Z.of_nat n).
Proof.
  destruct (nat_to_string_digits n) as [ds [_ [_ [Hl Hv]]]].
  rewrite Hl, <- (app_nil_r (map digit_char ds)), Hv. reflexivity.
Qed.

Lemma nat_to_string_inj (a b : nat) : nat_to_string a = nat_to_string b -> a = b.
Proof.
  intro H. assert (Hv := digits_value_nat_to_string a).
  rewrite H, digits_value_nat_to_string in Hv. injection Hv. lia.
Qed.

Lemma digit_char_cases (d : nat) :
  (d < 10)%nat -> forall (P : ascii -> Prop),
  P "0"%char -> P "1"%char -> P "2"%char -> P "3"%char -> P "4"%char ->
  P "5"%char -> P "6"%char -> P "7"%char -> P "8"%char -> P "9"%char ->
  P (digit_char d).
Proof.
  intros Hd P H0 H1 H2 H3 H4 H5 H6 H7 H8 H9.
  do 10 (destruct d as [|d]; [assumption|]). lia.
Qed.

Lemma drop_ws_digits (ds : list nat) :
  (forall d, In d ds -> d < 10)%nat -> drop_ws (map digit_char ds) = map digit_char ds.
Proof.
  destruct ds as [|d ds]; intro Hd; [reflexivity|]. cbn [map drop_ws].
  apply (digit_char_cases d (Hd d (or_introl eq_refl))
           (fun c => (if is_ws c then drop_ws (map digit_char ds)
                      else c :: map digit_char ds) = c :: map digit_char ds));
    reflexivity.
Qed.

(** Binary64 holds the integers up to [2^53] exactly. *)
Lemma round_binary64_int (z : Z) :
  (0 <= z <= 2 ^ 53)%Z -> round_binary64 z 1 = NNum z.
Proof.
  intro Hz. destruct (Z.eq_dec z 0) as [->|Hz0]; [reflexivity|].
  assert (Hpos : (0 < z)%Z) by lia.
  destruct (Z.log2_spec z Hpos) as [Hlo Hhi].
  assert (Hk0 : (0 <= Z.log2 z)%Z) by apply Z.log2_nonneg.
  assert (Hk53 : (Z.log2 z <= 53)%Z).
  { rewrite <- (Z.log2_pow2 53) by lia. apply Z.log2_le_mono. lia. }
  unfold round_binary64.
  replace (Z.eqb z 0) with false by (symmetry; apply Z.eqb_neq; exact Hz0).
  change (Z.log2 1) with 0%Z. rewrite Z.sub_0_r.
  unfold ge_pow2.
  replace (Z.leb 0 (Z.log2 z)) with true by (symmetry; apply Z.leb_le; exact Hk0).
  replace (Z.leb (1 * 2 ^ Z.log2 z) z) with true by (symmetry; apply Z.leb_le; lia).
  set (k := Z.log2 z) in *.
  replace (Z.max (k - 52) (-1074)) with (k - 52)%Z by lia.
  destruct (Z.eq_dec k 53) as [Ek|Ek].
  - assert (Ez : z = (2 ^ 53)%Z).
    { apply Z.le_antisymm; [lia|]. rewrite <- Ek. exact Hlo. }
    rewrite Ek, Ez. vm_compute. reflexivity.
  - replace (Z.max 0 (k - 52)) with 0%Z by lia.
    replace (Z.max 0 (- (k - 52))) with (52 - k)%Z by lia.
    rewrite Z.pow_0_r, Z.mul_1_r, Z.div_1_r, Zmod_1_r.
    cbn [Z.mul Z.ltb Z.eqb Z.compare orb andb].
    assert (Hp : (0 < 2 ^ (52 - k))%Z) by (apply Z.pow_pos_nonneg; lia).
    destruct (Z.eq_dec k 52) as [E52|E52].
    + rewrite E52, Z.sub_diag, Z.pow_0_r, !Z.mul_1_r.
      replace (Z.leb (2 ^ 1024) z) with false
        by (symmetry; apply Z.leb_gt; apply (Z.le_lt_trans _ (2 ^ 53)); [lia|reflexivity]).
      cbn [andb Z.leb Z.compare]. unfold dyadic. cbn [Z.leb Z.compare].
      now rewrite Z.pow_0_r, Z.mul_1_r.
    + replace (Z.leb 0 (k - 52)) with false by (symmetry; apply Z.leb_gt; lia).
      cbn [andb]. unfold dyadic.
      replace (Z.leb 0 (k - 52)) with false by (symmetry; apply Z.leb_gt; lia).
      replace (- (k - 52))%Z with (52 - k)%Z by lia.
      rewrite Z_mod_mult, Z.eqb_refl, Z.div_mul by lia. reflexivity.
Qed.

Lemma span_digits_all (ds : list nat) :
  (forall d, In d ds -> d < 10)%nat ->
  span_digits (map digit_char ds) = (map digit_char ds, []).
Proof.
  induction ds as [|d ds IH]; intro Hd; [reflexivity|].
  cbn [map span_digits].
  rewrite digit_val_digit_char by (apply Hd; left; reflexivity).
  rewrite IH by (intros x Hx; apply Hd; right; exact Hx). reflexivity.
Qed.

(** A string of decimal digits is read as a decimal literal. *)
Lemma str_to_number_digit_chars (ds : list nat) (s : string) :
  ds <> [] -> (forall d, In d ds -> d < 10)%nat ->
  list_ascii_of_string s = map digit_char ds ->
  str_to_number s = parse_decimal (map digit_char ds).
Proof.
  intros Hne Hd Hl. unfold str_to_number. rewrite Hl. unfold trim_ws.
  rewrite drop_ws_digits by exact Hd.
  rewrite <- map_rev, drop_ws_digits by (intros d Hin; apply Hd, in_rev, Hin).
  rewrite map_rev, rev_involutive.
  destruct ds as [|d ds]; [congruence|].
  assert (Hd0 : (d < 10)%nat) by (apply Hd; left; reflexivity).
  cbn [map]. pattern (digit_char d).
  apply (digit_char_cases d Hd0); cbv beta; try reflexivity.
  destruct ds as [|d2 ds]; [reflexivity|].
  assert (Hd2 : (d2 < 10)%nat) by (apply Hd; right; left; reflexivity).
  cbn [map]. pattern (digit_char d2).
  apply (digit_char_cases d2 Hd2); cbv beta; reflexivity.
Qed.

(** [Number(String(n))] is [n] for the safe integers. *)
Lemma str_to_number_nat_to_string (n : nat) :
  (Z.of_nat n <= 2 ^ 53)%Z ->
  str_to_number (nat_to_string n) = NNum (Z.of_nat n).
Proof.
  intro Hn.
  destruct (nat_to_string_digits n) as [ds [Hne [Hd [Hl Hv]]]].
  rewrite (str_to_number_digit_chars ds _ Hne Hd Hl).
  unfold parse_decimal. rewrite span_digits_all by exact Hd.
  assert (Hval : digits_value 0 (map digit_char ds ++ []) = Some (Z.of_nat n)).
  { rewrite Hv. reflexivity. }
  destruct (map digit_char ds) as [|c l] eqn:Hm;
    [destruct ds; [congruence | discriminate Hm]|].
  cbn iota beta. rewrite Hval. cbn [List.length Z.of_nat Z.sub].
  unfold decimal_value.
  destruct (Z.eqb (Z.of_nat n) 0) eqn:E0.
  - apply Z.eqb_eq in E0. now rewrite E0.
  - cbn [Z.ltb Z.leb Z.compare]. rewrite Z.pow_0_r, Z.mul_1_r.
    apply round_binary64_int. lia.
Qed.

Lemma nat_to_string_small (n : nat) :
  (n < 10)%nat -> nat_to_string n = String (digit_char n) "".
Proof.
  intro H. unfold nat_to_string. cbn [nat_to_string_aux].
  replace (Nat.ltb n 10) with true by (symmetry; apply Nat.ltb_lt; exact H).
  now rewrite Nat.mod_small.
Qed.

Lemma nat_to_string_two (n : nat) :
  (10 <= n < 100)%nat ->
  nat_to_string n =
  String (digit_char (Nat.div n 10)) (String (digit_char (Nat.modulo n 10)) "").
Proof.
  intro H. unfold nat_to_string.
  destruct n as [|n']; [lia|].
  cbn [nat_to_string_aux].
  replace (Nat.ltb (S n') 10) with false by (symmetry; apply Nat.ltb_ge; lia).
  destruct n' as [|n'']; [lia|]. cbn [nat_to_string_aux].
  assert (Hq : (Nat.div (S (S n'')) 10 < 10)%nat) by (apply Nat.Div0.div_lt_upper_bound; lia).
  replace (Nat.ltb (Nat.div (S (S n'')) 10) 10) with true
    by (symmetry; apply Nat.ltb_lt; exact Hq).
  now rewrite (Nat.mod_small (Nat.div (S (S n'')) 10)) by exact Hq.
Qed.

Lemma nat_to_string_length_le2 (n : nat) :
  (n < 100)%nat -> (String.length (nat_to_string n) <= 2)%nat.
Proof.
  intro H. destruct (Nat.ltb n 10) eqn:E.
  - apply Nat.ltb_lt in E. rewrite nat_to_string_small by exact E. cbn [String.length]. lia.
  - apply Nat.ltb_ge in E. rewrite nat_to_string_two by lia. cbn [String.length]. lia.
Qed.

End DecimalFacts.

Module DurationFacts.
Import Duration DecimalFacts.

Lemma length_string_of_list (l : list ascii) :
  String.length (string_of_list_ascii l) = List.length l.
Proof. induction l as [|c l IH]; simpl; congruence. Qed.

Lemma length_append_str (s1 s2 : string) :
  String.length (s1 ++ s2) = (String.length s1 + String.length s2)%nat.
Proof. induction s1 as [|c s1 IH]; simpl; congruence. Qed.

Lemma length_padStart (n : nat) (c : ascii) (s : string) :
  String.length (padStart n c s) = Nat.max n (String.length s).
Proof.
  unfold padStart. rewrite length_append_str, length_string_of_list, repeat_length. lia.
Qed.

Lemma digits_value_zeros (k : nat) (l : list ascii) :
  digits_value 0 (repeat "0"%char k ++ l) = digits_value 0 l.
Proof. induction k as [|k IH]; [reflexivity|]. exact IH. Qed.

Lemma digits_value_padStart (n : nat) (s : string) :
  digits_value 0 (list_ascii_of_string (padStart n "0" s)) =
  digits_value 0 (list_ascii_of_string s).
Proof.
  unfold padStart. rewrite list_ascii_app, list_ascii_of_string_of_list_ascii.
  apply digits_value_zeros.
Qed.

End DurationFacts.

Module DurationExtras.
Import Duration DecimalFacts DurationFacts.

(** The label splits at its colon into a minutes part and a two-character
    seconds part; both read back as decimal numbers, the minutes as
    [seconds / 60] and the seconds as [seconds mod 60]. *)
Theorem formatDuration_round_trip (seconds : nat) :
  exists mm ss,
    formatDuration seconds = (mm ++ ":" ++ ss)%string /\
    String.length ss = 2%nat /\ (2 <= String.length mm)%nat /\
    digits_value 0 (list_ascii_of_string mm) = Some (Z.of_nat (Nat.div seconds 60)) /\
    digits_value 0 (list_ascii_of_string ss) = Some (Z.of_nat (Nat.modulo seconds 60)) /\
    seconds = (60 * Nat.div seconds 60 + Nat.modulo seconds 60)%nat.
Proof.
  exists (padStart 2 "0" (nat_to_string (Nat.div seconds 60))),
         (padStart 2 "0" (nat_to_string (Nat.modulo seconds 60))).
  assert (Hr : (Nat.modulo seconds 60 < 60)%nat) by (apply Nat.mod_upper_bound; lia).
  repeat split.
  - rewrite length_padStart.
    assert (H := nat_to_string_length_le2 (Nat.modulo seconds 60) ltac:(lia)). lia.
  - rewrite length_padStart. lia.
  - rewrite digits_value_padStart. apply digits_value_nat_to_string.
  - rewrite digits_value_padStart. apply digits_value_nat_to_string.
  - apply Nat.div_mod_eq.
Qed.

(** Under 100 minutes the label is five characters, "MM:SS". *)
Theorem formatDuration_five_chars (seconds : nat) :
  (seconds < 100 * 60)%nat -> String.length (formatDuration seconds) = 5%nat.
Proof.
  intro H. unfold formatDuration.
  rewrite !length_append_str, !length_padStart.
  assert (Hm : (Nat.div seconds 60 < 100)%nat) by (apply Nat.Div0.div_lt_upper_bound; lia).
  assert (Hr : (Nat.modulo seconds 60 < 60)%nat) by (apply Nat.mod_upper_bound; lia).
  assert (H1 := nat_to_string_length_le2 _ Hm).
  assert (H2 := nat_to_string_length_le2 (Nat.modulo seconds 60) ltac:(lia)).
  simpl String.length at 2. lia.
Qed.

Lemma formatDuration_five_chars_witness :
  (99 * 60 + 59 < 100 * 60)%nat /\ String.length (formatDuration (99 * 60 + 59)) = 5%nat.
Proof. split; [lia | apply (formatDuration_five_chars (99 * 60 + 59)); lia]. Defined.

End DurationExtras.

Module CallFacts.
Import Call CallMore CallMoreView DecimalFacts.

Lemma msg_id_inj (a b : nat) :
  ("msg-" ++ nat_to_string a)%string = ("msg-" ++ nat_to_string b)%string -> a = b.
Proof. intro H. injection H as H. now apply nat_to_string_inj. Qed.

Lemma counter_step (p : provider) (o : provider_op) :
  (messageIdCounter p <= messageIdCounter (provider_step p o))%nat.
Proof.
  destruct o as [u| | | |m t]; cbn [provider_step]; try (simpl; lia).
  unfold addMessage. destruct (p_sender m), (p_text m); try lia.
  destruct (String.eqb _ ""); simpl; lia.
Qed.

Lemma counter_run (os : list provider_op) (p : provider) :
  (messageIdCounter p <= messageIdCounter (provider_run os p))%nat.
Proof.
  unfold provider_run. revert p.
  induction os as [|o os IH]; intro p; simpl; [lia|].
  specialize (IH (provider_step p o)). pose proof (counter_step p o). lia.
Qed.

Lemma ids_from_step (lo : nat) (p : provider) (o : provider_op) :
  ids_from lo p -> ids_from lo (provider_step p o).
Proof.
  intros [Hlo [Hnd Hx]]. destruct o as [u| | | |m t]; cbn [provider_step].
  - exact (conj Hlo (conj Hnd Hx)).
  - exact (conj Hlo (conj Hnd Hx)).
  - exact (conj Hlo (conj Hnd Hx)).
  - split; [exact Hlo | split; [constructor | intros x []]].
  - unfold addMessage.
    destruct (p_sender m) as [s|], (p_text m) as [tx|];
      try exact (conj Hlo (conj Hnd Hx)).
    destruct (String.eqb tx ""); [exact (conj Hlo (conj Hnd Hx))|].
    unfold ids_from, transcript_ids in *. cbn [transcript messageIdCounter].
    split; [lia|]. split.
    + rewrite map_app. apply NoDup_app; [exact Hnd | repeat constructor; intros [] |].
      intros y Hy [Hz|[]]. cbn [msg_id] in Hz. subst y.
      apply in_map_iff in Hy as [x [Hid Hin]].
      destruct (Hx x Hin) as [k [Hk Hkid]].
      rewrite Hid in Hkid. apply msg_id_inj in Hkid. lia.
    + intros x Hin. apply in_app_or in Hin as [Hin|[<-|[]]].
      * destruct (Hx x Hin) as [k [Hk Hkid]]. exists k. split; [lia | exact Hkid].
      * exists (messageIdCounter p). split; [lia | reflexivity].
Qed.

Lemma ids_from_run (lo : nat) (os : list provider_op) (p : provider) :
  ids_from lo p -> ids_from lo (provider_run os p).
Proof.
  unfold provider_run. revert p.
  induction os as [|o os IH]; intros p H; [exact H|].
  apply IH, ids_from_step, H.
Qed.

Lemma provider_run_app (os1 os2 : list provider_op) (p : provider) :
  provider_run (os1 ++ os2) p = provider_run os2 (provider_run os1 p).
Proof. unfold provider_run. apply fold_left_app. Qed.

Lemma ids_from_initial : ids_from 0 initial_provider.
Proof. split; [lia | split; [constructor | intros x []]]. Qed.

Lemma connected_step (p : provider) (o : provider_op) :
  o <> OpEnd -> isInCall p = true -> isInCall (provider_step p o) = true.
Proof.
  intros Ho Hc. destruct o as [u| | | |m t]; cbn [provider_step]; try exact Hc.
  - reflexivity.
  - congruence.
  - unfold addMessage. destruct (p_sender m), (p_text m); try exact Hc.
    destruct (String.eqb _ ""); exact Hc.
Qed.

End CallFacts.

Module CallExtras.
Import Call CallView CallMore CallMoreView CallFacts.

(** Transcript ids are distinct: whatever sequence of provider calls was
    made, no two entries of the transcript share an id. *)
Theorem transcript_ids_distinct (os : list provider_op) :
  NoDup (transcript_ids (provider_run os initial_provider)).
Proof. apply (ids_from_run 0 os initial_provider ids_from_initial). Qed.

(** [endCall] clears the transcript but not [messageIdCounter]: an entry
    added after an [endCall] never has the id of an entry present before it. *)
Theorem ids_not_reused_after_endCall (os1 os2 os3 : list provider_op) (x y : message) :
  In x (transcript (provider_run os1 initial_provider)) ->
  In y (transcript (provider_run (os1 ++ os2 ++ OpEnd :: os3) initial_provider)) ->
  msg_id x <> msg_id y.
Proof.
  intros Hx Hy Heq.
  set (p1 := provider_run os1 initial_provider) in *.
  set (p2 := provider_run os2 p1).
  rewrite provider_run_app, provider_run_app in Hy. fold p1 p2 in Hy.
  destruct (ids_from_run 0 os1 initial_provider ids_from_initial) as [_ [_ H1]].
  destruct (H1 x Hx) as [k [Hk Hkid]].
  assert (Hc : (messageIdCounter p1 <= messageIdCounter p2)%nat) by apply counter_run.
  assert (Hend : ids_from (messageIdCounter p2) (provider_step p2 OpEnd)).
  { split; [simpl; lia | split; [constructor | intros z []]]. }
  change (provider_run (OpEnd :: os3) p2) with (provider_run os3 (provider_step p2 OpEnd)) in Hy.
  destruct (ids_from_run _ os3 _ Hend) as [_ [_ H3]].
  destruct (H3 y Hy) as [k' [Hk' Hk'id]].
  rewrite Hkid, Hk'id in Heq. apply msg_id_inj in Heq. unfold p2, p1 in *. lia.
Qed.

Lemma ids_not_reused_after_endCall_witness :
  exists x y,
    In x (transcript (provider_run [OpAdd hello 0] initial_provider)) /\
    In y (transcript (provider_run ([OpAdd hello 0] ++ [] ++ OpEnd :: [OpAdd hello 1])
                        initial_provider)) /\
    msg_id x <> msg_id y.
Proof.
  pose (d := mkMessage "" alice "" None 0).
  pose (x := hd d (transcript (provider_run [OpAdd hello 0] initial_provider))).
  pose (y := hd d (transcript (provider_run ([OpAdd hello 0] ++ [] ++ OpEnd :: [OpAdd hello 1])
                                 initial_provider))).
  assert (Hx : In x (transcript (provider_run [OpAdd hello 0] initial_provider)))
    by (vm_compute; left; reflexivity).
  assert (Hy : In y (transcript (provider_run ([OpAdd hello 0] ++ [] ++ OpEnd :: [OpAdd hello 1])
                                   initial_provider)))
    by (vm_compute; left; reflexivity).
  exists x, y. split; [exact Hx|]. split; [exact Hy|].
  exact (ids_not_reused_after_endCall [OpAdd hello 0] [] [OpAdd hello 1] x y Hx Hy).
Defined.

(** Once connected, the provider stays connected through every call other
    than [endCall]: [rejectCall] and [startCall] during a call, and
    [acceptCall] again, leave it [Connected]. *)
Theorem connected_until_endCall (os : list provider_op) (p : provider) :
  ~ In OpEnd os -> phase_of p = Connected -> phase_of (provider_run os p) = Connected.
Proof.
  unfold phase_of. intros Hn Hp.
  assert (Hc : isInCall p = true) by (destruct (isInCall p); [reflexivity|];
                                       destruct (isCalling p); discriminate).
  enough (H : isInCall (provider_run os p) = true) by now rewrite H.
  unfold provider_run. revert p Hp Hc.
  induction os as [|o os IH]; intros p Hp Hc; [exact Hc|].
  simpl. apply IH.
  - intro H. apply Hn. now right.
  - rewrite connected_step; [reflexivity | intro E; apply Hn; left; now symmetry | exact Hc].
  - apply connected_step; [intro E; apply Hn; left; now symmetry | exact Hc].
Qed.

Lemma connected_until_endCall_witness :
  ~ In OpEnd [OpReject; OpStart alice; OpAdd hello 0] /\
  phase_of (acceptCall initial_provider) = Connected /\
  phase_of (provider_run [OpReject; OpStart alice; OpAdd hello 0]
              (acceptCall initial_provider)) = Connected.
Proof.
  split; [simpl; intros [H|[H|[H|[]]]]; discriminate|].
  split; [reflexivity|].
  apply connected_until_endCall; [simpl; intros [H|[H|[H|[]]]]; discriminate | reflexivity].
Defined.

End CallExtras.

Module RelayFacts3.
Import Relay RelayView RelayFacts RelayFacts2.

(** An entry under another key is untouched by [getOrCreateClient] followed
    by an update of the key. *)
Lemma lookup_touch_other (k k' : number) (f : client -> client) (now : Z) (m : clients) :
  k <> k' -> lookup k (update k' f (getOrCreateClient k' now m)) = lookup k m.
Proof.
  intro Hne. rewrite lookup_update.
  destruct (number_eqb k k') eqn:E; [apply number_eqb_eq in E; contradiction|].
  rewrite lookup_getOrCreate, E. destruct (lookup k m); reflexivity.
Qed.

Lemma field_set_to (b : list (string * jsval)) (v : jsval) (key : string) :
  key <> "to" -> field (obj_set b "to" v) key = field b key.
Proof.
  intro H. unfold field. rewrite obj_get_set.
  destruct (String.eqb key "to") eqn:E; [apply String.eqb_eq in E; contradiction|].
  reflexivity.
Qed.

Lemma field_set_to_same (b : list (string * jsval)) (v : jsval) :
  field (obj_set b "to" v) "to" = v.
Proof. unfold field. now rewrite obj_get_set. Qed.

End RelayFacts3.

Module RelayExtras.
Import Relay RelayView RelayFacts RelayFacts2 RelayFacts3 DecimalFacts.

(** POST /api/messaging/register never drops or reorders pending messages:
    every queue is unchanged, and the caller's entry exists afterwards with
    [lastPoll] set to the request time. *)
Theorem register_keeps_queues (u now : Z) (m : clients) :
  (forall k, queue_of k (snd (register u now m)) = queue_of k m) /\
  lookup (NNum u) (snd (register u now m)) = Some (mkClient now (queue_of (NNum u) m)).
Proof.
  split.
  - intro k. unfold register. cbn [snd].
    rewrite queue_of_update_same_messages by reflexivity.
    apply queue_of_getOrCreate.
  - unfold register, queue_of. cbn [snd].
    rewrite lookup_update, number_eqb_refl, lookup_getOrCreate_same.
    destruct (lookup (NNum u) m); reflexivity.
Qed.

(** A poll by user [u] leaves the entry of every other key exactly as it
    was. *)
Theorem poll_leaves_others (u now : Z) (m : clients) (k : number) :
  k <> NNum u -> lookup k (snd (poll u now m)) = lookup k m.
Proof. intro Hne. unfold poll. cbn [snd]. now apply lookup_touch_other. Qed.

Lemma poll_leaves_others_witness :
  NNum 2 <> NNum 1 /\
  lookup (NNum 2) (snd (poll 1 0 [(NNum 2, mkClient 0 [JStr "hi"])])) =
  lookup (NNum 2) [(NNum 2, mkClient 0 [JStr "hi"])].
Proof. split; [discriminate | apply poll_leaves_others; discriminate]. Defined.



(** A positive recipient id up to [2^53] given as its decimal string ("7")
    is handled exactly like the number 7; the number 0 is falsy and the
    send is rejected as missing a field. *)
Theorem send_string_recipient (s : Z) (b : list (string * jsval)) (t : Z) (m : clients) :
  (forall n : nat, (Z.of_nat (S n) <= 2 ^ 53)%Z ->
     send s (obj_set b "to" (JStr (nat_to_string (S n)))) t m =
     send s (obj_set b "to" (JNum (Z.of_nat (S n)))) t m) /\
  send s (obj_set b "to" (JNum 0)) t m = (RStatus 400 "Missing required fields", m).
Proof.
  split.
  - intros n Hn. unfold send.
    rewrite !field_set_to_same. rewrite !field_set_to by discriminate.
    assert (Hs : truthy (JStr (nat_to_string (S n))) = true).
    { destruct (nat_to_string_digits (S n)) as [ds [Hne [_ [Hl _]]]].
      destruct (nat_to_string (S n)) as [|c r]; [destruct ds; [congruence | cbn [list_ascii_of_string map] in Hl; discriminate Hl]|].
      reflexivity. }
    rewrite Hs. cbn [truthy js_Number js_Number_throws].
    replace (Z.eqb (Z.of_nat (S n)) 0) with false by (symmetry; apply Z.eqb_neq; lia).
    rewrite (str_to_number_nat_to_string (S n) Hn). reflexivity.
  - unfold send. rewrite field_set_to_same. reflexivity.
Qed.

Lemma send_string_recipient_witness :
  (Z.of_nat 7 <= 2 ^ 53)%Z /\
  send 1 (obj_set ping_to_2 "to" (JStr (nat_to_string 7))) 0 [] =
  send 1 (obj_set ping_to_2 "to" (JNum (Z.of_nat 7))) 0 [].
Proof.
  assert (H : (Z.of_nat (S 6) <= 2 ^ 53)%Z) by (vm_compute; discriminate).
  split; [exact H|].
  exact (proj1 (send_string_recipient 1 ping_to_2 0 []) 6 H).
Defined.

(** Two recipient values that [!to] and [Number(to)] treat alike give the
    same send. *)
Lemma send_to_converts (s : Z) (b : list (string * jsval)) (t : Z) (m : clients)
    (v w : jsval) :
  truthy v = truthy w -> js_Number_throws v = js_Number_throws w ->
  js_Number v = js_Number w ->
  send s (obj_set b "to" v) t m = send s (obj_set b "to" w) t m.
Proof.
  intros H1 H2 H3. unfold send.
  rewrite !field_set_to_same, !field_set_to by discriminate.
  now rewrite H1, H2, H3.
Qed.

(** The recipient field goes through [Number()]: the strings "2", "2.0",
    "0x2", "0X02", "0b10", "0o2", "2e0", "20e-1", ".2e1", "+2" and " 2 "
    reach user 2 exactly like the number 2, and "9007199254740993", which
    binary64 rounds, reaches user [2^53]. *)
Theorem send_numeric_literals (s : Z) (b : list (string * jsval)) (t : Z) (m : clients) :
  Forall (fun lit => send s (obj_set b "to" (JStr lit)) t m =
                     send s (obj_set b "to" (JNum 2)) t m)
    ["2"; "2.0"; "0x2"; "0X02"; "0b10"; "0o2"; "2e0"; "20e-1"; ".2e1"; "+2"; " 2 "] /\
  send s (obj_set b "to" (JStr "9007199254740993")) t m =
  send s (obj_set b "to" (JNum (2 ^ 53))) t m.
Proof.
  split.
  - apply Forall_forall. intros lit Hin.
    repeat (destruct Hin as [<-|Hin];
            [apply send_to_converts; vm_compute; reflexivity|]).
    destruct Hin.
  - apply send_to_converts; vm_compute; reflexivity.
Qed.

(** A client that has just polled survives every cleanup run in the next
    five minutes, with an empty queue. *)
Theorem poll_keeps_client_alive (u t now : Z) (m : clients) :
  keys_unique m -> (now - t <= STALE_MS)%Z ->
  lookup (NNum u) (sweep now (snd (poll u t m))) = Some (mkClient t []).
Proof.
  intros Hu Hle.
  assert (Hl : lookup (NNum u) (snd (poll u t m)) = Some (mkClient t [])).
  { unfold poll. cbn [snd].
    rewrite lookup_update, number_eqb_refl, lookup_getOrCreate_same. reflexivity. }
  rewrite (sweep_lookup _ _ _ _ (keys_unique_step (EPoll u t) m Hu) Hl).
  cbn [lastPoll].
  replace (Z.ltb STALE_MS (now - t)) with false by (symmetry; apply Z.ltb_ge; lia).
  reflexivity.
Qed.

Lemma poll_keeps_client_alive_witness :
  keys_unique [] /\ (300000 - 0 <= STALE_MS)%Z /\
  lookup (NNum 1) (sweep 300000 (snd (poll 1 0 []))) = Some (mkClient 0 []).
Proof.
  split; [constructor|]. split; [unfold STALE_MS; lia|].
  apply poll_keeps_client_alive; [constructor | unfold STALE_MS; lia].
Defined.

End RelayExtras.

Module StorageFacts.
Import Relay RelayFacts RelayFacts2 Server ServerView Samples DecimalFacts.

Section Maps.
Context {V : Type}.

Lemma map_get_set_same (k : number) (v : V) (m : list (number * V)) :
  map_get k (map_set k v m) = Some v.
Proof.
  induction m as [|[k' v'] m IH]; cbn [map_set map_get].
  - now rewrite number_eqb_refl.
  - destruct (number_eqb k k') eqn:E; cbn [map_get]; rewrite ?E; [reflexivity | exact IH].
Qed.

Lemma map_get_set_other (k k' : number) (v : V) (m : list (number * V)) :
  k <> k' -> map_get k (map_set k' v m) = map_get k m.
Proof.
  intro Hne. induction m as [|[k0 v0] m IH]; cbn [map_set map_get].
  - destruct (number_eqb k k') eqn:E; [apply number_eqb_eq in E; contradiction|].
    reflexivity.
  - destruct (number_eqb k' k0) eqn:E0; cbn [map_get].
    + apply number_eqb_eq in E0. subst k0.
      destruct (number_eqb k k') eqn:E; [apply number_eqb_eq in E; contradiction|].
      reflexivity.
    + destruct (number_eqb k k0); [reflexivity | exact IH].
Qed.

Lemma in_map_set (k k' : number) (v w : V) (m : list (number * V)) :
  In (k', w) (map_set k v m) -> (k' = k /\ w = v) \/ In (k', w) m.
Proof.
  induction m as [|[k0 v0] m IH]; cbn [map_set].
  - intros [H|[]]. injection H as -> ->. now left.
  - destruct (number_eqb k k0) eqn:E.
    + apply number_eqb_eq in E. subst k0.
      intros [H|H]; [injection H as -> ->; now left | right; now right].
    + intros [H|H]; [right; now left|].
      destruct (IH H) as [H1|H1]; [now left | right; now right].
Qed.

Lemma map_get_in (k : number) (v : V) (m : list (number * V)) :
  map_get k m = Some v -> In (k, v) m.
Proof.
  induction m as [|[k0 v0] m IH]; cbn [map_get]; [discriminate|].
  destruct (number_eqb k k0) eqn:E.
  - apply number_eqb_eq in E. subst k0. intro H. injection H as ->. now left.
  - intro H. right. now apply IH.
Qed.

Lemma map_get_none (k : number) (m : list (number * V)) :
  (forall v, ~ In (k, v) m) -> map_get k m = None.
Proof.
  induction m as [|[k0 v0] m IH]; intro H; cbn [map_get]; [reflexivity|].
  destruct (number_eqb k k0) eqn:E.
  - apply number_eqb_eq in E. subst k0. exfalso. apply (H v0). now left.
  - apply IH. intros v Hv. apply (H v). now right.
Qed.

Lemma map_get_delete (k k' : number) (m : list (number * V)) :
  map_get k' (snd (map_delete k m)) = if number_eqb k' k then None else map_get k' m.
Proof.
  unfold map_delete. cbn [snd].
  induction m as [|[k0 v0] m IH]; cbn [filter map_get].
  - destruct (number_eqb k' k); reflexivity.
  - cbn [fst]. destruct (number_eqb k k0) eqn:E; cbn [negb map_get].
    + apply number_eqb_eq in E. subst k0. rewrite IH.
      destruct (number_eqb k' k); reflexivity.
    + rewrite IH. destruct (number_eqb k' k0) eqn:E1, (number_eqb k' k) eqn:E2;
        try reflexivity.
      apply number_eqb_eq in E1, E2. subst. now rewrite number_eqb_refl in E.
Qed.

Lemma in_values_map_set (k : number) (v w : V) (m : list (number * V)) :
  In w (map snd (map_set k v m)) -> w = v \/ In w (map snd m).
Proof.
  intro H. apply in_map_iff in H as [[k' w'] [Hw Hin]]. cbn [snd] in Hw. subst w'.
  destruct (in_map_set _ _ _ _ _ Hin) as [[_ ->]|H]; [now left|].
  right. apply in_map_iff. now exists (k', w).
Qed.

Lemma find_map_set (f : V -> bool) (k : number) (v : V) (m : list (number * V)) :
  (forall w, In w (map snd m) -> f w = false) -> f v = true ->
  find f (map snd (map_set k v m)) = Some v.
Proof.
  intros Hm Hv. induction m as [|[k0 v0] m IH]; cbn [map_set].
  - simpl. now rewrite Hv.
  - assert (H0 : f v0 = false) by (apply Hm; now left).
    destruct (number_eqb k k0); simpl; [now rewrite Hv|].
    rewrite H0. apply IH. intros w Hw. apply Hm. now right.
Qed.

End Maps.

Lemma find_none_all {A : Type} (f : A -> bool) (l : list A) :
  find f l = None -> forall x, In x l -> f x = false.
Proof.
  induction l as [|a l IH]; simpl; intros H x Hx; [destruct Hx|].
  destruct (f a) eqn:E; [discriminate|].
  destruct Hx as [<-|Hx]; [exact E | now apply IH].
Qed.

(** Objects built by spreads and property writes. *)

Lemma obj_get_not_in (fs : list (string * jsval)) (key : string) :
  ~ In key (map fst fs) -> obj_get fs key = None.
Proof.
  induction fs as [|[k v] fs IH]; intro Hn; cbn [obj_get]; [reflexivity|].
  destruct (String.eqb key k) eqn:E.
  - apply String.eqb_eq in E. subst k. exfalso. apply Hn. now left.
  - apply IH. intro H. apply Hn. now right.
Qed.

Lemma obj_get_rev (fs : list (string * jsval)) (key : string) :
  NoDup (map fst fs) -> obj_get (rev fs) key = obj_get fs key.
Proof.
  induction fs as [|[k v] fs IH]; intro Hnd; [reflexivity|].
  inversion Hnd as [|x l Hx Hl]; subst.
  cbn [rev]. rewrite obj_get_app, IH by exact Hl. cbn [obj_get].
  destruct (String.eqb key k) eqn:E.
  - apply String.eqb_eq in E. subst k.
    rewrite (obj_get_not_in fs key Hx). cbn [obj_get]. rewrite ?String.eqb_refl. reflexivity.
  - destruct (obj_get fs key); reflexivity.
Qed.

Lemma in_keys_obj_set (o : list (string * jsval)) (k x : string) (v : jsval) :
  In x (map fst (obj_set o k v)) -> x = k \/ In x (map fst o).
Proof.
  induction o as [|[k' v'] o IH]; cbn [obj_set].
  - intros [H|[]]. now left.
  - destruct (String.eqb k k'); cbn [map fst In]; intros [H|H]; auto.
    destruct (IH H); auto.
Qed.

Lemma obj_set_nodup (o : list (string * jsval)) (k : string) (v : jsval) :
  NoDup (map fst o) -> NoDup (map fst (obj_set o k v)).
Proof.
  induction o as [|[k' v'] o IH]; intro Hnd; cbn [obj_set].
  - repeat constructor. intros [].
  - inversion Hnd as [|x l Hx Hl]; subst.
    destruct (String.eqb k k') eqn:E; cbn [map fst]; [exact Hnd|].
    constructor; [|now apply IH].
    intro Hin. destruct (in_keys_obj_set _ _ _ _ Hin) as [H|H]; [|contradiction].
    subst k'. now rewrite String.eqb_refl in E.
Qed.

Lemma object_spread_nodup (base : list (string * jsval)) (v : jsval) :
  NoDup (map fst base) -> NoDup (map fst (object_spread base v)).
Proof.
  unfold object_spread. generalize (spread_props v) as ps. intro ps. revert base.
  induction ps as [|[k x] ps IH]; intros base H; [exact H|].
  simpl. apply IH, obj_set_nodup, H.
Qed.

Lemma spread_nodup (v : jsval) : NoDup (map fst (object_spread [] v)).
Proof. apply object_spread_nodup. constructor. Qed.

Lemma obj_get_spread_empty (fs : list (string * jsval)) (key : string) :
  obj_get (object_spread [] (JObj fs)) key = obj_get (rev fs) key.
Proof. rewrite obj_get_spread. destruct (obj_get (rev fs) key); reflexivity. Qed.

Lemma obj_get_copy (fs : list (string * jsval)) (key : string) :
  NoDup (map fst fs) -> obj_get (object_spread [] (JObj fs)) key = obj_get fs key.
Proof. intro H. rewrite obj_get_spread_empty. now apply obj_get_rev. Qed.

Lemma obj_get_omit (o : list (string * jsval)) (k : string) :
  obj_get (obj_omit o k) k = None.
Proof.
  unfold obj_omit. induction o as [|[k' v] o IH]; cbn [filter fst]; [reflexivity|].
  destruct (String.eqb k' k) eqn:E; cbn [negb]; [exact IH|].
  cbn [obj_get]. rewrite String.eqb_sym, E. exact IH.
Qed.

Lemma strict_eq_sym (a b : jsval) : strict_eq a b = strict_eq b a.
Proof.
  destruct a, b; cbn [strict_eq]; try reflexivity.
  - destruct b, b0; reflexivity.
  - apply Z.eqb_sym.
  - apply String.eqb_sym.
Qed.

Lemma strict_eq_num (z : Z) (v : jsval) : strict_eq (JNum z) v = true -> v = JNum z.
Proof.
  destruct v; cbn [strict_eq]; try discriminate.
  intro H. apply Z.eqb_eq in H. now subst.
Qed.

Lemma strict_eq_num_r (z : Z) (v : jsval) : strict_eq v (JNum z) = true -> v = JNum z.
Proof. rewrite strict_eq_sym. apply strict_eq_num. Qed.

Lemma field_createUser (ins : obj) (now : Z) (s : mem) (key : string) :
  NoDup (map fst ins) -> key <> "id" -> key <> "createdAt" ->
  field (fst (createUser ins now s)) key = field ins key.
Proof.
  intros Hnd H1 H2. unfold createUser, field. cbn [fst].
  rewrite !obj_get_set.
  destruct (String.eqb key "createdAt") eqn:E2; [apply String.eqb_eq in E2; contradiction|].
  destruct (String.eqb key "id") eqn:E1; [apply String.eqb_eq in E1; contradiction|].
  now rewrite obj_get_copy.
Qed.

(** [no_clash] survives storing a value that clashes with none of the map. *)
Lemma no_clash_map_set (key : string) (k : number) (v : obj) (m : list (number * obj)) :
  no_clash key (map snd m) ->
  (forall w, In w (map snd m) -> strict_eq (field w key) (field v key) = false) ->
  no_clash key (map snd (map_set k v m)).
Proof.
  induction m as [|[k0 v0] m IH]; intros Hc Hv; cbn [map_set].
  - simpl. split; [constructor | exact I].
  - destruct Hc as [Hf Hc]. cbn [map snd] in Hf.
    destruct (number_eqb k k0); cbn [map snd no_clash].
    + split; [|exact Hc]. apply Forall_forall. intros w Hw.
      apply Hv. now right.
    + split.
      * apply Forall_forall. intros w Hw.
        destruct (in_values_map_set _ _ _ _ Hw) as [->|Hw'].
        -- rewrite strict_eq_sym. apply Hv. now left.
        -- rewrite Forall_forall in Hf. now apply Hf.
      * apply IH; [exact Hc|]. intros w Hw. apply Hv. now right.
Qed.

Lemma ids_below_memStorage (now : Z) : ids_below (memStorage now).
Proof.
  intros k w Hin. destruct Hin as [H|[]]. injection H as <- _.
  exists 1%Z. split; [reflexivity | cbn; lia].
Qed.

Lemma calls_wf_store_with_call : calls_wf store_with_call.
Proof.
  intros k c H. unfold store_with_call, createCall in H. cbn [snd calls] in H.
  destruct H as [H|[]]. injection H as _ <-.
  repeat constructor; simpl; intuition discriminate.
Qed.

End StorageFacts.

Module ServerExtras.
Import Relay RelayFacts RelayFacts2 Server ServerView Samples DecimalFacts StorageFacts.

(** [authenticate] accepts a [user-id] header holding the decimal id (up
    to [2^53]) of a stored user, and attaches that user to the request. *)
Theorem authenticate_decimal_id (n : nat) (s : mem) (u : obj) :
  (Z.of_nat n <= 2 ^ 53)%Z ->
  getUser (NNum (Z.of_nat n)) s = Some u ->
  authenticate (Some (nat_to_string n)) s = inr u.
Proof.
  intros Hn H. unfold authenticate.
  destruct (String.eqb (nat_to_string n) "") eqn:E.
  - apply String.eqb_eq in E.
    destruct (nat_to_string_digits n) as [ds [Hne [_ [Hl _]]]].
    rewrite E in Hl. destruct ds; [congruence | discriminate Hl].
  - now rewrite (str_to_number_nat_to_string n Hn), H.
Qed.

Lemma authenticate_decimal_id_witness :
  exists u, (Z.of_nat 1 <= 2 ^ 53)%Z /\
            getUser (NNum (Z.of_nat 1)) (memStorage 0) = Some u /\
            authenticate (Some (nat_to_string 1)) (memStorage 0) = inr u.
Proof.
  assert (Hn : (Z.of_nat 1 <= 2 ^ 53)%Z) by (vm_compute; discriminate).
  eexists. split; [exact Hn|]. split; [reflexivity|].
  apply authenticate_decimal_id; [exact Hn | reflexivity].
Defined.

(** POST /api/users never stores a second user with a username or an email
    already taken. *)
Theorem postUsers_keeps_logins_unique (userData : obj) (now : Z) (s : mem) :
  NoDup (map fst userData) -> unique_logins s ->
  unique_logins (snd (postUsers userData now s)).
Proof.
  intros Hnd [Hu He]. unfold postUsers.
  destruct (getUserByUsername _ s) eqn:Fu; [exact (conj Hu He)|].
  destruct (getUserByEmail _ s) eqn:Fe; [exact (conj Hu He)|].
  unfold getUserByUsername, getUserByEmail in *.
  pose proof (find_none_all _ _ Fu) as Au. pose proof (find_none_all _ _ Fe) as Ae.
  assert (Fn := field_createUser userData now s "username" Hnd ltac:(discriminate) ltac:(discriminate)).
  assert (Fm := field_createUser userData now s "email" Hnd ltac:(discriminate) ltac:(discriminate)).
  unfold createUser in *. cbn [snd fst users] in *.
  split; apply no_clash_map_set; try assumption.
  - intros w Hw. rewrite Fn. now apply Au.
  - intros w Hw. rewrite Fm. now apply Ae.
Qed.

Lemma postUsers_keeps_logins_unique_witness :
  NoDup (map fst alice_data) /\ unique_logins (memStorage 0) /\
  unique_logins (snd (postUsers alice_data 5 (memStorage 0))).
Proof.
  assert (Hnd : NoDup (map fst alice_data)).
  { repeat constructor; simpl; intuition discriminate. }
  assert (Hu : unique_logins (memStorage 0)) by (split; simpl; auto).
  split; [exact Hnd|]. split; [exact Hu|].
  apply postUsers_keeps_logins_unique; assumption.
Defined.

(** A user who has just registered through POST /api/users can log in with
    the username and password the response shows; the login answer is the
    stored record without its password. *)
Theorem register_then_login (userData : obj) (now : Z) (s s' : mem) (u : obj)
    (n p : string) :
  NoDup (map fst userData) ->
  postUsers userData now s = (HJson 201 (JObj u), s') ->
  field u "username" = JStr n -> n <> "" ->
  field u "password" = JStr p -> p <> "" ->
  login [("username", JStr n); ("password", JStr p)] s' =
  HJson 200 (JObj (obj_omit u "password")).
Proof.
  intros Hnd Hpost Hn Hn0 Hp Hp0. unfold postUsers in Hpost.
  destruct (getUserByUsername _ s) eqn:Fu; [discriminate|].
  destruct (getUserByEmail _ s) eqn:Fe; [discriminate|].
  assert (Fn := field_createUser userData now s "username" Hnd ltac:(discriminate) ltac:(discriminate)).
  destruct (createUser userData now s) as [u0 s0] eqn:Hc.
  injection Hpost as Hu Hs. subst u0 s0. cbn [fst] in Fn.
  unfold getUserByUsername in Fu. pose proof (find_none_all _ _ Fu) as Au.
  unfold createUser in Hc. injection Hc as Hu' Hs'. subst s'.
  unfold login. cbn [field obj_get String.eqb Ascii.eqb Bool.eqb].
  assert (Tn : truthy (JStr n) = true).
  { cbn [truthy]. destruct (String.eqb n "") eqn:E; [apply String.eqb_eq in E; contradiction|].
    reflexivity. }
  assert (Tp : truthy (JStr p) = true).
  { cbn [truthy]. destruct (String.eqb p "") eqn:E; [apply String.eqb_eq in E; contradiction|].
    reflexivity. }
  rewrite Tn, Tp. cbn [negb orb].
  unfold getUserByUsername. cbn [users].
  rewrite Hu', find_map_set.
  - rewrite Hp. cbn [strict_eq]. now rewrite String.eqb_refl.
  - intros w Hw. rewrite <- Hn, Fn. now apply Au.
  - rewrite Hn. cbn [strict_eq]. apply String.eqb_refl.
Qed.

Lemma register_then_login_witness :
  exists u s',
    NoDup (map fst alice_data) /\
    postUsers alice_data 5 (memStorage 0) = (HJson 201 (JObj u), s') /\
    field u "username" = JStr "alice" /\ "alice" <> "" /\
    field u "password" = JStr "secret" /\ "secret" <> "" /\
    login [("username", JStr "alice"); ("password", JStr "secret")] s' =
    HJson 200 (JObj (obj_omit u "password")).
Proof.
  assert (Hnd : NoDup (map fst alice_data)).
  { repeat constructor; simpl; intuition discriminate. }
  do 2 eexists. split; [exact Hnd|]. split; [reflexivity|].
  split; [reflexivity|]. split; [discriminate|].
  split; [reflexivity|]. split; [discriminate|].
  apply (register_then_login alice_data 5 (memStorage 0)); [exact Hnd | reflexivity | reflexivity | discriminate
                               | reflexivity | discriminate].
Defined.

(** POST /api/auth/login answers with a body only when the first user with
    that username has exactly that password, and the body it sends is that
    user's record without a password property. *)
Theorem login_success_shape (body : obj) (s : mem) (code : Z) (v : jsval) :
  login body s = HJson code v ->
  code = 200%Z /\
  exists user,
    getUserByUsername (field body "username") s = Some user /\
    strict_eq (field user "password") (field body "password") = true /\
    v = JObj (obj_omit user "password") /\
    obj_get (obj_omit user "password") "password" = None.
Proof.
  unfold login. destruct (orb _ _); [discriminate|].
  destruct (getUserByUsername _ s) as [user|]; [|discriminate].
  destruct (strict_eq (field user "password") (field body "password")) eqn:E;
    cbn [negb]; [|discriminate].
  intro H. injection H as <- <-. split; [reflexivity|].
  exists user. repeat split; [exact E | apply obj_get_omit].
Qed.

Lemma login_success_shape_witness :
  login [("username", JStr "johndoe"); ("password", JStr "password123")] (memStorage 0) =
  HJson 200 (JObj (obj_omit (fst (createUser johndoe 0 (mkMem [] [] 1 1))) "password")) /\
  200%Z = 200%Z /\
  exists user,
    getUserByUsername (field [("username", JStr "johndoe"); ("password", JStr "password123")]
                         "username") (memStorage 0) = Some user /\
    strict_eq (field user "password")
      (field [("username", JStr "johndoe"); ("password", JStr "password123")] "password")
      = true /\
    JObj (obj_omit (fst (createUser johndoe 0 (mkMem [] [] 1 1))) "password") =
      JObj (obj_omit user "password") /\
    obj_get (obj_omit user "password") "password" = None.
Proof.
  split; [reflexivity|]. apply login_success_shape. reflexivity.
Defined.

End ServerExtras.

Module StorageExtras.
Import Relay RelayFacts RelayFacts2 Server ServerView Samples DecimalFacts StorageFacts.

(** PATCH /api/calls/:id/end changes the storage only when it answers with
    the updated call; then the duration was a non-negative number, the
    requester is the call's initiator or receiver, and only that call
    changed: [endTime] and [duration] are set, its other properties and all
    other calls and users are kept. *)
Theorem endCallRoute_effect (me : Z) (idParam : string) (body : obj) (now : Z)
    (s s' : mem) (r : http) :
  calls_wf s ->
  endCallRoute me idParam body now s = (r, s') ->
  (forall code msg, r = HStatus code msg -> s' = s) /\
  (forall code v, r = HJson code v ->
     exists d call upd,
       field body "duration" = JNum d /\ (0 <= d)%Z /\
       getCallById (str_to_number idParam) s = Some call /\
       (strict_eq (field call "initiatorId") (JNum me)
        || strict_eq (field call "receiverId") (JNum me))%bool = true /\
       v = JObj upd /\
       getCallById (str_to_number idParam) s' = Some upd /\
       obj_get upd "endTime" = Some (JNum now) /\
       obj_get upd "duration" = Some (JNum d) /\
       (forall key, key <> "endTime" -> key <> "duration" ->
          obj_get upd key = obj_get call key) /\
       (forall k, k <> str_to_number idParam -> getCallById k s' = getCallById k s) /\
       users s' = users s).
Proof.
  intros Hwf H. unfold endCallRoute in H.
  destruct (field body "duration") as [| | |d| | |] eqn:Hd;
    try (injection H as <- <-; split; [reflexivity | intros; discriminate]).
  destruct (Z.ltb d 0) eqn:Hlt;
    [injection H as <- <-; split; [reflexivity | intros; discriminate]|].
  destruct (getCallById (str_to_number idParam) s) as [call|] eqn:Hc;
    [|injection H as <- <-; split; [reflexivity | intros; discriminate]].
  destruct (andb _ _) eqn:Hp;
    [injection H as <- <-; split; [reflexivity | intros; discriminate]|].
  unfold updateCall in H. rewrite Hc in H. injection H as <- <-.
  split; [intros; discriminate|].
  intros code v Hv. injection Hv as <- <-.
  set (upd := obj_set (obj_set (object_spread [] (JObj call)) "endTime" (JNum now))
                "duration" (JNum d)).
  exists d, call, upd. repeat split.
  - apply Z.ltb_ge, Hlt.
  - destruct (strict_eq (field call "initiatorId") (JNum me)),
             (strict_eq (field call "receiverId") (JNum me)); try reflexivity.
    discriminate Hp.
  - unfold getCallById. cbn [calls]. apply map_get_set_same.
  - unfold upd. now rewrite !obj_get_set.
  - unfold upd. now rewrite !obj_get_set.
  - intros key H1 H2. unfold upd. rewrite !obj_get_set.
    destruct (String.eqb key "duration") eqn:E2; [apply String.eqb_eq in E2; contradiction|].
    destruct (String.eqb key "endTime") eqn:E1; [apply String.eqb_eq in E1; contradiction|].
    apply obj_get_copy. apply (Hwf _ _ (map_get_in _ _ _ Hc)).
  - intros k Hk. unfold getCallById. cbn [calls]. now apply map_get_set_other.
Qed.

Lemma endCallRoute_effect_witness :
  exists r s',
    calls_wf store_with_call /\
    endCallRoute 2 "1" [("duration", JNum 60)] 100 store_with_call = (r, s') /\
    r = HJson 200 (JObj [("initiatorId", JNum 1); ("receiverId", JNum 2);
                         ("initiatorLanguage", JStr "en"); ("receiverLanguage", JStr "es");
                         ("id", JNum 1); ("startTime", JNum 0); ("endTime", JNum 100);
                         ("duration", JNum 60)]) /\
    (forall code msg, r = HStatus code msg -> s' = store_with_call) /\
    (forall code v, r = HJson code v ->
     exists d call upd,
       field [("duration", JNum 60)] "duration" = JNum d /\ (0 <= d)%Z /\
       getCallById (str_to_number "1") store_with_call = Some call /\
       (strict_eq (field call "initiatorId") (JNum 2)
        || strict_eq (field call "receiverId") (JNum 2))%bool = true /\
       v = JObj upd /\
       getCallById (str_to_number "1") s' = Some upd /\
       obj_get upd "endTime" = Some (JNum 100) /\
       obj_get upd "duration" = Some (JNum d) /\
       (forall key, key <> "endTime" -> key <> "duration" ->
          obj_get upd key = obj_get call key) /\
       (forall k, k <> str_to_number "1" -> getCallById k s' = getCallById k store_with_call) /\
       users s' = users store_with_call).
Proof.
  pose (res := endCallRoute 2 "1" [("duration", JNum 60)] 100 store_with_call).
  assert (E : endCallRoute 2 "1" [("duration", JNum 60)] 100 store_with_call =
              (fst res, snd res)) by apply surjective_pairing.
  exists (fst res), (snd res). split; [exact calls_wf_store_with_call|]. split; [exact E|].
  split; [vm_compute; reflexivity|].
  exact (endCallRoute_effect 2 "1" [("duration", JNum 60)] 100 store_with_call (snd res) (fst res)
           calls_wf_store_with_call E).
Defined.

(** [createUser] stores the new record under a key no user had, reads it
    back with [getUser], touches no other key, and keeps every key below the
    id counter. *)
Theorem createUser_fresh (ins : obj) (now : Z) (s s' : mem) (u : obj) :
  ids_below s ->
  createUser ins now s = (u, s') ->
  getUser (NNum (currentUserId s)) s = None /\
  getUser (NNum (currentUserId s)) s' = Some u /\
  field u "id" = JNum (currentUserId s) /\
  (forall k, k <> NNum (currentUserId s) -> getUser k s' = getUser k s) /\
  ids_below s'.
Proof.
  intros Hb Hc. unfold createUser in Hc. injection Hc as <- <-.
  repeat split.
  - unfold getUser. apply map_get_none. intros v Hin.
    destruct (Hb _ _ Hin) as [z [Hz Hlt]]. injection Hz as Hz. lia.
  - unfold getUser. cbn [users]. apply map_get_set_same.
  - unfold field. now rewrite !obj_get_set.
  - intros k Hk. unfold getUser. cbn [users]. now apply map_get_set_other.
  - intros k w Hin. cbn [users currentUserId] in *.
    destruct (in_map_set _ _ _ _ _ Hin) as [[-> _]|H].
    + exists (currentUserId s). split; [reflexivity | lia].
    + destruct (Hb _ _ H) as [z [-> Hz]]. exists z. split; [reflexivity | lia].
Qed.

Lemma createUser_fresh_witness :
  exists u s',
    ids_below (memStorage 0) /\
    createUser alice_data 5 (memStorage 0) = (u, s') /\
    getUser (NNum (currentUserId (memStorage 0))) (memStorage 0) = None /\
    getUser (NNum (currentUserId (memStorage 0))) s' = Some u /\
    field u "id" = JNum (currentUserId (memStorage 0)) /\
    (forall k, k <> NNum (currentUserId (memStorage 0)) ->
               getUser k s' = getUser k (memStorage 0)) /\
    ids_below s'.
Proof.
  pose (res := createUser alice_data 5 (memStorage 0)).
  assert (E : createUser alice_data 5 (memStorage 0) = (fst res, snd res))
    by apply surjective_pairing.
  exists (fst res), (snd res). split; [apply ids_below_memStorage|]. split; [exact E|].
  exact (createUser_fresh alice_data 5 (memStorage 0) (snd res) (fst res)
           (ids_below_memStorage 0) E).
Defined.

(** After [deleteUser] of a stored user, the id is gone for good: the
    delete reports [true], a second delete reports [false], and the next
    [createUser] puts the new user under another id, so the deleted key
    stays empty. *)
Theorem deleted_id_not_reused (k : number) (w ins : obj) (now : Z)
    (s s1 s2 : mem) (b : bool) (u : obj) :
  ids_below s ->
  getUser k s = Some w ->
  deleteUser k s = (b, s1) ->
  createUser ins now s1 = (u, s2) ->
  b = true /\ getUser k s1 = None /\ fst (deleteUser k s1) = false /\
  NNum (currentUserId s1) <> k /\ getUser k s2 = None.
Proof.
  intros Hb Hw Hd Hc.
  unfold deleteUser, map_delete in Hd. unfold getUser in Hw. rewrite Hw in Hd.
  injection Hd as <- <-.
  set (us := filter _ (users s)).
  assert (Hk : map_get k us = None).
  { pose proof (map_get_delete k k (users s)) as H. unfold map_delete in H.
    cbn [snd] in H. rewrite number_eqb_refl in H. exact H. }
  assert (Hne : NNum (currentUserId s) <> k).
  { intro E. apply map_get_in in Hw. destruct (Hb _ _ Hw) as [z [Hz Hlt]].
    rewrite <- E in Hz. injection Hz as Hz. lia. }
  repeat split.
  - unfold getUser. exact Hk.
  - unfold deleteUser, map_delete. cbn [users]. now rewrite Hk.
  - exact Hne.
  - unfold createUser in Hc. injection Hc as _ <-. unfold getUser. cbn [users currentUserId].
    rewrite map_get_set_other by (intro E; apply Hne; now symmetry). exact Hk.
Qed.

Lemma deleted_id_not_reused_witness :
  exists b s1 u s2,
    ids_below (memStorage 0) /\
    getUser (NNum 1) (memStorage 0) = Some (fst (createUser johndoe 0 (mkMem [] [] 1 1))) /\
    deleteUser (NNum 1) (memStorage 0) = (b, s1) /\
    createUser alice_data 5 s1 = (u, s2) /\
    b = true /\ getUser (NNum 1) s1 = None /\ fst (deleteUser (NNum 1) s1) = false /\
    NNum (currentUserId s1) <> NNum 1 /\ getUser (NNum 1) s2 = None.
Proof.
  pose (d := deleteUser (NNum 1) (memStorage 0)).
  pose (c := createUser alice_data 5 (snd d)).
  assert (Ed : deleteUser (NNum 1) (memStorage 0) = (fst d, snd d)) by apply surjective_pairing.
  assert (Ec : createUser alice_data 5 (snd d) = (fst c, snd c)) by apply surjective_pairing.
  assert (Hg : getUser (NNum 1) (memStorage 0) = Some (fst (createUser johndoe 0 (mkMem [] [] 1 1))))
    by reflexivity.
  exists (fst d), (snd d), (fst c), (snd c).
  split; [apply ids_below_memStorage|]. split; [exact Hg|]. split; [exact Ed|]. split; [exact Ec|].
  exact (deleted_id_not_reused (NNum 1) _ alice_data 5 (memStorage 0) (snd d) (snd c)
           (fst d) (fst c) (ids_below_memStorage 0) Hg Ed Ec).
Defined.

(** [updateUser] on a stored user writes back [{ ...user, ...userData }]:
    each property of [userData] overrides, every other property of the user
    is kept; no other user, no call and no counter changes. *)
Theorem updateUser_merge (id : number) (data : obj) (s : mem) (user : obj) :
  getUser id s = Some user ->
  NoDup (map fst user) -> NoDup (map fst data) ->
  exists upd,
    updateUser id data s = (Some upd, mkMem (map_set id upd (users s)) (calls s)
                                          (currentUserId s) (currentCallId s)) /\
    getUser id (snd (updateUser id data s)) = Some upd /\
    (forall key, obj_get upd key =
       match obj_get data key with Some v => Some v | None => obj_get user key end) /\
    (forall k, k <> id -> getUser k (snd (updateUser id data s)) = getUser k s).
Proof.
  intros Hg Hu Hd. unfold updateUser. rewrite Hg.
  eexists. split; [reflexivity|]. cbn [snd]. split; [|split].
  - unfold getUser. cbn [users]. apply map_get_set_same.
  - intro key. rewrite obj_get_spread, obj_get_rev by exact Hd.
    now rewrite obj_get_copy by exact Hu.
  - intros k Hk. unfold getUser. cbn [users]. now apply map_get_set_other.
Qed.

Lemma updateUser_merge_witness :
  getUser (NNum 1) (memStorage 0) = Some (fst (createUser johndoe 0 (mkMem [] [] 1 1))) /\
  NoDup (map fst (fst (createUser johndoe 0 (mkMem [] [] 1 1)))) /\
  NoDup (map fst [("bio", JStr "Polyglot")]) /\
  exists upd,
    updateUser (NNum 1) [("bio", JStr "Polyglot")] (memStorage 0) =
      (Some upd, mkMem (map_set (NNum 1) upd (users (memStorage 0))) (calls (memStorage 0))
                   (currentUserId (memStorage 0)) (currentCallId (memStorage 0))) /\
    getUser (NNum 1) (snd (updateUser (NNum 1) [("bio", JStr "Polyglot")] (memStorage 0))) =
      Some upd /\
    (forall key, obj_get upd key =
       match obj_get [("bio", JStr "Polyglot")] key with
       | Some v => Some v
       | None => obj_get (fst (createUser johndoe 0 (mkMem [] [] 1 1))) key
       end) /\
    (forall k, k <> NNum 1 ->
       getUser k (snd (updateUser (NNum 1) [("bio", JStr "Polyglot")] (memStorage 0))) =
       getUser k (memStorage 0)).
Proof.
  assert (Hg : getUser (NNum 1) (memStorage 0) =
               Some (fst (createUser johndoe 0 (mkMem [] [] 1 1)))) by reflexivity.
  assert (Hu : NoDup (map fst (fst (createUser johndoe 0 (mkMem [] [] 1 1))))).
  { unfold createUser. apply obj_set_nodup, obj_set_nodup, spread_nodup. }
  assert (Hd : NoDup (map fst [("bio", JStr "Polyglot")])) by (repeat constructor; intros []).
  split; [exact Hg|]. split; [exact Hu|]. split; [exact Hd|].
  exact (updateUser_merge (NNum 1) _ (memStorage 0) _ Hg Hu Hd).
Defined.

(** PATCH /api/users/:id changes at most the record of the requester: the
    storage is unchanged, or the path id is the requester's own id and
    every other user and all calls are as before. *)
Theorem patchUser_own_only (me : obj) (idParam : string) (data : obj) (s : mem)
    (r : http) (s' : mem) :
  patchUser me idParam data s = (r, s') ->
  s' = s \/
  exists z, field me "id" = JNum z /\ str_to_number idParam = NNum z /\
            (forall k, k <> NNum z -> getUser k s' = getUser k s) /\
            calls s' = calls s.
Proof.
  unfold patchUser. destruct (getUser _ s) as [user|] eqn:Hg;
    [|intro H; injection H as _ <-; now left].
  destruct (strict_eq_number (field me "id") (str_to_number idParam)) eqn:Hs; cbn [negb];
    [|intro H; injection H as _ <-; now left].
  unfold updateUser. rewrite Hg. intro H. injection H as _ <-. right.
  destruct (field me "id") as [| | |z| | |]; try discriminate Hs.
  destruct (str_to_number idParam) as [y| | |] eqn:Hn; try discriminate Hs.
  apply Z.eqb_eq in Hs. subst y. exists z. repeat split.
  intros k Hk. unfold getUser. cbn [users]. now apply map_get_set_other.
Qed.

Lemma patchUser_own_only_witness :
  exists r s',
    patchUser (fst (createUser johndoe 0 (mkMem [] [] 1 1))) "1" [("bio", JStr "Polyglot")]
      (memStorage 0) = (r, s') /\
    (s' = memStorage 0 \/
     exists z, field (fst (createUser johndoe 0 (mkMem [] [] 1 1))) "id" = JNum z /\
               str_to_number "1" = NNum z /\
               (forall k, k <> NNum z -> getUser k s' = getUser k (memStorage 0)) /\
               calls s' = calls (memStorage 0)).
Proof.
  pose (res := patchUser (fst (createUser johndoe 0 (mkMem [] [] 1 1))) "1"
                 [("bio", JStr "Polyglot")] (memStorage 0)).
  assert (E : patchUser (fst (createUser johndoe 0 (mkMem [] [] 1 1))) "1"
                [("bio", JStr "Polyglot")] (memStorage 0) = (fst res, snd res))
    by apply surjective_pairing.
  exists (fst res), (snd res). split; [exact E|].
  exact (patchUser_own_only _ "1" _ (memStorage 0) (fst res) (snd res) E).
Defined.

(** A call created through POST /api/calls by its initiator starts with
    [endTime] and [duration] null, and that initiator can then end it
    through PATCH /api/calls/:id/end with the decimal id of the call (an
    id up to [2^53]) and any non-negative duration. *)
Theorem postCalls_then_end (me : Z) (data : obj) (now t d : Z) (n : nat)
    (s s1 : mem) (r : http) :
  NoDup (map fst data) ->
  field data "initiatorId" = JNum me ->
  currentCallId s = Z.of_nat n ->
  (Z.of_nat n <= 2 ^ 53)%Z ->
  (0 <= d)%Z ->
  postCalls me data now s = (r, s1) ->
  exists call upd,
    r = HJson 201 (JObj call) /\
    obj_get call "id" = Some (JNum (Z.of_nat n)) /\
    obj_get call "endTime" = Some JNull /\ obj_get call "duration" = Some JNull /\
    endCallRoute me (nat_to_string n) [("duration", JNum d)] t s1 =
      (HJson 200 (JObj upd),
       mkMem (users s1) (map_set (NNum (Z.of_nat n)) upd (calls s1))
         (currentUserId s1) (currentCallId s1)) /\
    obj_get upd "endTime" = Some (JNum t) /\ obj_get upd "duration" = Some (JNum d).
Proof.
  intros Hnd Hi Hn Hb Hd Hp. unfold postCalls in Hp.
  rewrite Hi in Hp. cbn [strict_eq negb] in Hp. rewrite Z.eqb_refl in Hp.
  unfold createCall in Hp. rewrite Hn in Hp. injection Hp as <- <-.
  set (call := obj_set (obj_set (obj_set (obj_set (object_spread [] (JObj data))
                 "id" (JNum (Z.of_nat n))) "startTime" (JNum now)) "endTime" JNull)
                 "duration" JNull).
  assert (Hg : getCallById (NNum (Z.of_nat n))
                 (mkMem (users s) (map_set (NNum (Z.of_nat n)) call (calls s))
                    (currentUserId s) (Z.of_nat n + 1)) = Some call).
  { unfold getCallById. cbn [calls]. apply map_get_set_same. }
  assert (Hc : field call "initiatorId" = JNum me).
  { unfold call, field. rewrite !obj_get_set. cbn [String.eqb Ascii.eqb Bool.eqb].
    rewrite obj_get_copy by exact Hnd. unfold field in Hi.
    destruct (obj_get data "initiatorId"); [exact Hi | discriminate Hi]. }
  exists call. eexists. split; [reflexivity|].
  split; [unfold call; now rewrite !obj_get_set|].
  split; [unfold call; now rewrite !obj_get_set|].
  split; [unfold call; now rewrite !obj_get_set|].
  split.
  - unfold endCallRoute. cbn [field obj_get String.eqb Ascii.eqb Bool.eqb].
    replace (Z.ltb d 0) with false by (symmetry; apply Z.ltb_ge; exact Hd).
    rewrite (str_to_number_nat_to_string n Hb), Hg, Hc. cbn [strict_eq].
    rewrite Z.eqb_refl.
    cbn [negb andb]. unfold updateCall. rewrite Hg. reflexivity.
  - split; now rewrite !obj_get_set.
Qed.

Lemma postCalls_then_end_witness :
  exists r s1,
    NoDup (map fst call_2_1) /\ field call_2_1 "initiatorId" = JNum 2 /\
    currentCallId store_with_call = Z.of_nat 2 /\ (Z.of_nat 2 <= 2 ^ 53)%Z /\
    (0 <= 90)%Z /\
    postCalls 2 call_2_1 50 store_with_call = (r, s1) /\
    exists call upd,
      r = HJson 201 (JObj call) /\
      obj_get call "id" = Some (JNum (Z.of_nat 2)) /\
      obj_get call "endTime" = Some JNull /\ obj_get call "duration" = Some JNull /\
      endCallRoute 2 (nat_to_string 2) [("duration", JNum 90)] 200 s1 =
        (HJson 200 (JObj upd),
         mkMem (users s1) (map_set (NNum (Z.of_nat 2)) upd (calls s1))
           (currentUserId s1) (currentCallId s1)) /\
      obj_get upd "endTime" = Some (JNum 200) /\ obj_get upd "duration" = Some (JNum 90).
Proof.
  pose (res := postCalls 2 call_2_1 50 store_with_call).
  assert (E : postCalls 2 call_2_1 50 store_with_call = (fst res, snd res))
    by apply surjective_pairing.
  assert (Hnd : NoDup (map fst call_2_1)) by (repeat constructor; simpl; intuition discriminate).
  assert (Hi : field call_2_1 "initiatorId" = JNum 2) by reflexivity.
  assert (Hn : currentCallId store_with_call = Z.of_nat 2) by reflexivity.
  assert (Hb : (Z.of_nat 2 <= 2 ^ 53)%Z) by (vm_compute; discriminate).
  assert (Hd : (0 <= 90)%Z) by lia.
  exists (fst res), (snd res). do 6 (split; [assumption|]).
  exact (postCalls_then_end 2 call_2_1 50 200 90 2 store_with_call (snd res) (fst res)
           Hnd Hi Hn Hb Hd E).
Defined.

End StorageExtras.

Module LangFacts.
Import Relay RelayFacts RelayFacts2 Server Langs ServerView StorageFacts.

Lemma strict_eq_number_true (v : jsval) (n : number) :
  strict_eq_number v n = true -> exists z, v = JNum z /\ n = NNum z.
Proof.
  destruct v, n; cbn [strict_eq_number]; try discriminate.
  intro H. apply Z.eqb_eq in H. subst. eauto.
Qed.

Lemma in_getUserLanguages (u : number) (ls : lstore) (l : obj) :
  In l (getUserLanguages u ls) <->
  (exists k, In (k, l) (userLanguages ls)) /\ strict_eq_number (field l "userId") u = true.
Proof.
  unfold getUserLanguages. rewrite filter_In, in_map_iff. split.
  - intros [[[k l'] [E H]] Hf]. cbn [snd] in E. subst l'. eauto.
  - intros [[k H] Hf]. split; [exists (k, l); auto | exact Hf].
Qed.

Section Keys.
Context {V : Type}.

Lemma nodup_keys_in (m : list (number * V)) (k : number) (a b : V) :
  NoDup (map fst m) -> In (k, a) m -> In (k, b) m -> a = b.
Proof.
  induction m as [|[k0 v0] m IH]; intros Hnd Ha Hb; [destruct Ha|].
  inversion Hnd as [|x l Hx Hl]; subst.
  destruct Ha as [Ha|Ha], Hb as [Hb|Hb].
  - injection Ha as -> ->. now injection Hb as ->.
  - injection Ha as -> ->. exfalso. apply Hx. apply in_map_iff. now exists (k, b).
  - injection Hb as -> ->. exfalso. apply Hx. apply in_map_iff. now exists (k, a).
  - now apply IH.
Qed.

Lemma in_keys_map_set (k x : number) (v : V) (m : list (number * V)) :
  In x (map fst (map_set k v m)) -> x = k \/ In x (map fst m).
Proof.
  intro H. apply in_map_iff in H as [[x' w] [Ex Hin]]. cbn [fst] in Ex. subst x'.
  destruct (in_map_set _ _ _ _ _ Hin) as [[-> _]|H]; [now left|].
  right. apply in_map_iff. now exists (x, w).
Qed.

Lemma map_set_nodup (k : number) (v : V) (m : list (number * V)) :
  NoDup (map fst m) -> NoDup (map fst (map_set k v m)).
Proof.
  induction m as [|[k0 v0] m IH]; intro Hnd; cbn [map_set].
  - repeat constructor. intros [].
  - inversion Hnd as [|x l Hx Hl]; subst.
    destruct (number_eqb k k0) eqn:E; cbn [map fst]; [exact Hnd|].
    constructor; [|now apply IH].
    intro Hin. destruct (in_keys_map_set _ _ _ _ Hin) as [H|H]; [|contradiction].
    subst k0. now rewrite number_eqb_refl in E.
Qed.



Lemma map_get_nodup_in (m : list (number * V)) (k : number) (v : V) :
  NoDup (map fst m) -> In (k, v) m -> map_get k m = Some v.
Proof.
  induction m as [|[k0 v0] m IH]; intros Hnd Hin; [destruct Hin|].
  inversion Hnd as [|x l Hx Hl]; subst. cbn [map_get].
  destruct Hin as [H|H].
  - injection H as -> ->. now rewrite number_eqb_refl.
  - destruct (number_eqb k k0) eqn:E.
    + apply number_eqb_eq in E. subst k0. exfalso. apply Hx.
      apply in_map_iff. now exists (k, v).
    + now apply IH.
Qed.

End Keys.

(** The language [findOwnLanguage] returns is one of the requester's, stored
    under the key it was looked up by. *)
Lemma findOwnLanguage_some (me : Z) (id : number) (ls : lstore) (l : obj) :
  langs_wf ls -> findOwnLanguage me id ls = Some l ->
  field l "userId" = JNum me /\ In (id, l) (userLanguages ls).
Proof.
  intros [Hnd Hk] Hf. unfold findOwnLanguage in Hf.
  apply find_some in Hf as [Hin Hid].
  apply in_getUserLanguages in Hin as [[k Hin] Hu].
  apply strict_eq_number_true in Hu as [z [Hu Ez]]. injection Ez as <-.
  split; [exact Hu|].
  apply strict_eq_number_true in Hid as [y [Hy ->]].
  destruct (Hk _ _ Hin) as [z [-> [_ Hz]]]. rewrite Hz in Hy. injection Hy as ->. exact Hin.
Qed.

Lemma findOwnLanguage_owner (me : Z) (id : number) (ls : lstore) (l : obj) :
  findOwnLanguage me id ls = Some l -> strict_eq (JNum me) (field l "userId") = true.
Proof.
  intro Hf. unfold findOwnLanguage in Hf. apply find_some in Hf as [Hin _].
  apply in_getUserLanguages in Hin as [_ Hu].
  apply strict_eq_number_true in Hu as [z [Hu Ez]]. injection Ez as ->.
  rewrite Hu. cbn [strict_eq]. apply Z.eqb_refl.
Qed.

Lemma in_map_set_other {V : Type} (k k' : number) (v w : V) (m : list (number * V)) :
  In (k', w) m -> k' <> k -> In (k', w) (map_set k v m).
Proof.
  induction m as [|[k0 v0] m IH]; intros H Hne; [destruct H|]. cbn [map_set].
  destruct (number_eqb k k0) eqn:E.
  - apply number_eqb_eq in E. subst k0. destruct H as [H|H].
    + injection H as -> ->. contradiction.
    + now right.
  - destruct H as [H|H]; [now left | right; now apply IH].
Qed.

(** The key of another user's entry is not the one a PATCH or DELETE of
    [me] acts on. *)
Lemma others_key_differs (me : Z) (id : number) (ls : lstore) (lf : obj) (k : number) (l : obj) :
  langs_wf ls -> findOwnLanguage me id ls = Some lf ->
  In (k, l) (userLanguages ls) -> field l "userId" <> JNum me -> k <> id.
Proof.
  intros Hwf Hf Hin Hne ->. destruct (findOwnLanguage_some _ _ _ _ Hwf Hf) as [Hu Hin'].
  destruct Hwf as [Hnd _]. rewrite (nodup_keys_in _ _ _ _ Hnd Hin Hin') in Hne.
  contradiction.
Qed.

Lemma field_addUserLanguage (ins : obj) (ls : lstore) (key : string) :
  NoDup (map fst ins) -> key <> "id" ->
  field (fst (addUserLanguage ins ls)) key = field ins key.
Proof.
  intros Hnd Hk. unfold addUserLanguage, field. cbn [fst]. rewrite obj_get_set.
  destruct (String.eqb key "id") eqn:E; [apply String.eqb_eq in E; contradiction|].
  now rewrite obj_get_copy.
Qed.

Lemma langs_wf_memLangs : langs_wf memLangs.
Proof.
  split; [repeat constructor; simpl; intuition discriminate|].
  intros k l [H|[H|[]]]; injection H as <- <-.
  - exists 1%Z. repeat split; lia.
  - exists 2%Z. repeat split; lia.
Qed.

Lemma langs_distinct_memLangs : langs_distinct memLangs.
Proof.
  intros k1 l1 k2 l2 [H1|[H1|[]]] [H2|[H2|[]]] Hne Hu;
    injection H1 as <- <-; injection H2 as <- <-;
    solve [contradiction Hne; reflexivity | reflexivity].
Qed.

End LangFacts.

Module LangExtras.
Import Relay RelayFacts RelayFacts2 Server Langs ServerView Samples StorageFacts LangFacts.

(** PATCH /api/user-languages/:id never answers 403 (only the requester's
    own languages are looked up), and it leaves every entry of another user
    as it was. *)
Theorem patchLanguage_own_only (me : Z) (idParam : string) (data : obj)
    (ls ls' : lstore) (r : http) :
  langs_wf ls ->
  patchLanguage me idParam data ls = (r, ls') ->
  r <> HStatus 403 "Forbidden" /\
  forall k l, In (k, l) (userLanguages ls) -> field l "userId" <> JNum me ->
    In (k, l) (userLanguages ls').
Proof.
  intros Hwf Hp. unfold patchLanguage in Hp.
  destruct (findOwnLanguage me (str_to_number idParam) ls) as [lf|] eqn:Hf.
  - rewrite (findOwnLanguage_owner _ _ _ _ Hf) in Hp. cbn [negb] in Hp.
    destruct (findOwnLanguage_some _ _ _ _ Hwf Hf) as [_ Hin'].
    unfold updateUserLanguage in Hp.
    rewrite (map_get_nodup_in _ _ _ (proj1 Hwf) Hin') in Hp.
    injection Hp as <- <-. split; [discriminate|].
    intros k l Hin Hne. cbn [userLanguages].
    apply in_map_set_other; [exact Hin|].
    exact (others_key_differs _ _ _ _ _ _ Hwf Hf Hin Hne).
  - injection Hp as <- <-. split; [discriminate | auto].
Qed.

Lemma patchLanguage_own_only_witness :
  exists r ls',
    langs_wf memLangs /\
    patchLanguage 1 "2" [("proficiency", JStr "intermediate")] memLangs = (r, ls') /\
    r <> HStatus 403 "Forbidden" /\
    forall k l, In (k, l) (userLanguages memLangs) -> field l "userId" <> JNum 1 ->
      In (k, l) (userLanguages ls').
Proof.
  pose (res := patchLanguage 1 "2" [("proficiency", JStr "intermediate")] memLangs).
  assert (E : patchLanguage 1 "2" [("proficiency", JStr "intermediate")] memLangs =
              (fst res, snd res)) by apply surjective_pairing.
  exists (fst res), (snd res). split; [exact langs_wf_memLangs|]. split; [exact E|].
  exact (patchLanguage_own_only 1 "2" _ memLangs (snd res) (fst res) langs_wf_memLangs E).
Defined.



(** POST /api/users/:userId/languages keeps the language store well formed
    and never gives a user the same language twice, when the validated
    body carries the requester's id as [userId]. *)
Theorem postLanguages_keeps_distinct (me : Z) (userIdParam : string) (data : obj)
    (ls ls' : lstore) (r : http) :
  langs_wf ls -> langs_distinct ls ->
  NoDup (map fst data) -> field data "userId" = JNum me ->
  postLanguages me userIdParam data ls = (r, ls') ->
  langs_wf ls' /\ langs_distinct ls'.
Proof.
  intros Hwf Hdis Hnd Hme Hp. unfold postLanguages in Hp.
  destruct (strict_eq_number (JNum me) (str_to_number userIdParam)) eqn:Hid; cbn [negb] in Hp;
    [|injection Hp as _ <-; now split].
  apply strict_eq_number_true in Hid as [z [Ez Hz]]. injection Ez as <-. rewrite Hz in Hp.
  destruct (existsb _ _) eqn:Hex; [injection Hp as _ <-; now split|].
  assert (Fl := field_addUserLanguage data ls "language" Hnd ltac:(discriminate)).
  assert (Fu := field_addUserLanguage data ls "userId" Hnd ltac:(discriminate)).
  destruct (addUserLanguage data ls) as [nl ls1] eqn:Ha. cbn [fst] in Fl, Fu.
  injection Hp as _ <-. unfold addUserLanguage in Ha. injection Ha as Hnl <-. subst nl.
  cbn [userLanguages currentUserLanguageId].
  set (cur := currentUserLanguageId ls) in *.
  assert (Hold : forall l, (exists k, In (k, l) (userLanguages ls)) ->
                 field l "userId" = JNum me ->
                 strict_eq (field l "language") (field data "language") = false).
  { intros l Hk Hu.
    apply Bool.not_true_is_false. intro Ht.
    assert (Hin : In l (getUserLanguages (NNum me) ls)).
    { apply in_getUserLanguages. split; [exact Hk|]. rewrite Hu. cbn. apply Z.eqb_refl. }
    pose proof (proj2 (existsb_exists
      (fun lang : obj => strict_eq (field lang "language") (field data "language"))
      (getUserLanguages (NNum me) ls)) (ex_intro _ l (conj Hin Ht))) as Hc.
    exact (Bool.diff_false_true (eq_trans (eq_sym Hex) Hc)). }
  destruct Hwf as [Hkeys Hk]. split; [split|].
  - now apply map_set_nodup.
  - intros k l Hin. destruct (in_map_set _ _ _ _ _ Hin) as [[-> ->]|H].
    + exists cur. repeat split; [cbn [currentUserLanguageId]; unfold cur in *; lia|]. unfold field. now rewrite obj_get_set.
    + destruct (Hk _ _ H) as [y [-> [Hy Hl]]]. exists y. repeat split; [cbn [currentUserLanguageId]; unfold cur in *; lia | exact Hl].
  - intros k1 l1 k2 l2 H1 H2 Hne Hu.
    destruct (in_map_set _ _ _ _ _ H1) as [[-> ->]|H1'],
             (in_map_set _ _ _ _ _ H2) as [[-> ->]|H2'].
    + contradiction.
    + rewrite strict_eq_sym, Fl. apply Hold; [eauto | congruence].
    + rewrite Fl. apply Hold; [eauto | congruence].
    + now apply (Hdis k1 l1 k2 l2).
Qed.

Lemma postLanguages_keeps_distinct_witness :
  exists r ls',
    langs_wf memLangs /\ langs_distinct memLangs /\
    NoDup (map fst german) /\ field german "userId" = JNum 1 /\
    postLanguages 1 "1" german memLangs = (r, ls') /\
    langs_wf ls' /\ langs_distinct ls'.
Proof.
  pose (res := postLanguages 1 "1" german memLangs).
  assert (E : postLanguages 1 "1" german memLangs = (fst res, snd res))
    by apply surjective_pairing.
  assert (Hnd : NoDup (map fst german)) by (repeat constructor; simpl; intuition discriminate).
  assert (Hu : field german "userId" = JNum 1) by reflexivity.
  exists (fst res), (snd res).
  split; [exact langs_wf_memLangs|]. split; [exact langs_distinct_memLangs|].
  split; [exact Hnd|]. split; [exact Hu|]. split; [exact E|].
  exact (postLanguages_keeps_distinct 1 "1" german memLangs (snd res) (fst res)
           langs_wf_memLangs langs_distinct_memLangs Hnd Hu E).
Defined.

(** GET /api/users/:id needs no [user-id] header and answers with the whole
    stored record: every property keeps its stored value, the password
    included, except [createdAt], sent as its ISO string, and [languages],
    which holds the user's languages. *)
Theorem getUserRoute_exposes_password (toISOString : Z -> string) (idParam : string)
    (s : mem) (ls : lstore) (user : obj) (t : Z) :
  getUser (str_to_number idParam) s = Some user ->
  NoDup (map fst user) ->
  field user "createdAt" = JNum t ->
  exists body,
    getUserRoute toISOString idParam s ls = HJson 200 (JObj body) /\
    obj_get body "password" = obj_get user "password" /\
    (forall k, k <> "createdAt" -> k <> "languages" -> obj_get body k = obj_get user k) /\
    obj_get body "createdAt" = Some (JStr (toISOString t)) /\
    obj_get body "languages" =
      Some (JArr (map JObj (getUserLanguages (str_to_number idParam) ls))).
Proof.
  intros Hg Hnd Ht. unfold getUserRoute, getUserWithLanguages. rewrite Hg, Ht.
  eexists. split; [reflexivity|].
  split; [|split; [|split]].
  - rewrite !obj_get_set; cbn [String.eqb Ascii.eqb Bool.eqb].
    now rewrite obj_get_copy.
  - intros k Hc Hl. rewrite !obj_get_set.
    apply String.eqb_neq in Hc, Hl. rewrite Hc, Hl. now rewrite obj_get_copy.
  - rewrite !obj_get_set. reflexivity.
  - rewrite !obj_get_set. reflexivity.
Qed.

Lemma getUserRoute_exposes_password_witness :
  getUser (str_to_number "1") (memStorage 0) = Some (fst (createUser johndoe 0 (mkMem [] [] 1 1))) /\
  NoDup (map fst (fst (createUser johndoe 0 (mkMem [] [] 1 1)))) /\
  field (fst (createUser johndoe 0 (mkMem [] [] 1 1))) "createdAt" = JNum 0 /\
  exists body,
    getUserRoute iso_stub "1" (memStorage 0) memLangs = HJson 200 (JObj body) /\
    obj_get body "password" = Some (JStr "password123") /\
    (forall k, k <> "createdAt" -> k <> "languages" ->
       obj_get body k = obj_get (fst (createUser johndoe 0 (mkMem [] [] 1 1))) k) /\
    obj_get body "createdAt" = Some (JStr (iso_stub 0)) /\
    obj_get body "languages" =
      Some (JArr (map JObj (getUserLanguages (str_to_number "1") memLangs))).
Proof.
  assert (Hg : getUser (str_to_number "1") (memStorage 0) =
               Some (fst (createUser johndoe 0 (mkMem [] [] 1 1)))) by reflexivity.
  assert (Hnd : NoDup (map fst (fst (createUser johndoe 0 (mkMem [] [] 1 1))))).
  { unfold createUser. apply obj_set_nodup, obj_set_nodup, spread_nodup. }
  assert (Ht : field (fst (createUser johndoe 0 (mkMem [] [] 1 1))) "createdAt" = JNum 0)
    by reflexivity.
  split; [exact Hg|]. split; [exact Hnd|]. split; [exact Ht|].
  exact (getUserRoute_exposes_password iso_stub "1" (memStorage 0) memLangs _ 0 Hg Hnd Ht).
Defined.

End LangExtras.

Module CallListFacts.
Import Relay RelayFacts RelayFacts2 Server Langs ServerView StorageFacts LangFacts.

Lemma all_ok_in {A : Type} (xs : list (option A)) (ys : list A) :
  all_ok xs = Some ys -> forall y, In y ys -> In (Some y) xs.
Proof.
  revert ys. induction xs as [|[x|] xs IH]; intros ys H y Hy; cbn [all_ok] in H.
  - injection H as <-. destruct Hy.
  - destruct (all_ok xs) as [r|] eqn:E; [|discriminate].
    injection H as <-. destruct Hy as [<-|Hy]; [now left | right; now apply (IH r)].
  - discriminate.
Qed.

Lemma all_ok_length {A : Type} (xs : list (option A)) (ys : list A) :
  all_ok xs = Some ys -> List.length ys = List.length xs.
Proof.
  revert ys. induction xs as [|[x|] xs IH]; intros ys H; cbn [all_ok] in H.
  - now injection H as <-.
  - destruct (all_ok xs) as [r|] eqn:E; [|discriminate].
    injection H as <-. cbn [List.length]. now rewrite (IH r).
  - discriminate.
Qed.

(** What a participant slot of a call response holds. *)
Lemma call_response_side (iso : Z -> string) (s : mem) (v : jsval) (x : jsval) :
  match getUserAt v s with None => Some JUndef | Some u => user_summary iso u end = Some x ->
  x = JUndef \/ exists sm, x = JObj sm /\ obj_get sm "password" = None.
Proof.
  destruct (getUserAt v s) as [u|].
  - unfold user_summary. destruct (date_iso iso (field u "createdAt")); [|discriminate].
    intro H. injection H as <-. right. eexists. split; reflexivity.
  - intro H. injection H as <-. now left.
Qed.

End CallListFacts.

Module CallListExtras.
Import Relay RelayFacts RelayFacts2 Server Langs StorageFacts LangFacts ServerView
  Samples CallListFacts.

(** GET /api/users/:userId/calls answers with a list only for the
    requester's own id; it lists exactly the calls the requester initiated
    or received (one entry each), and the initiator and receiver shown in an
    entry carry no password. *)
Theorem getCallsRoute_own_calls (iso : Z -> string) (me : Z) (userIdParam : string)
    (s : mem) (code : Z) (vs : list jsval) :
  calls_wf s ->
  getCallsRoute iso me userIdParam s = HJson code (JArr vs) ->
  code = 200%Z /\ str_to_number userIdParam = NNum me /\
  List.length vs =
    List.length (filter (fun call => orb (strict_eq_number (field call "initiatorId") (NNum me))
                                         (strict_eq_number (field call "receiverId") (NNum me)))
                   (map snd (calls s))) /\
  forall v, In v vs ->
    exists c, v = JObj c /\
      orb (strict_eq_number (field c "initiatorId") (NNum me))
          (strict_eq_number (field c "receiverId") (NNum me)) = true /\
      forall side, side = "initiator" \/ side = "receiver" ->
        obj_get c side = Some JUndef \/
        exists sm, obj_get c side = Some (JObj sm) /\ obj_get sm "password" = None.
Proof.
  intros Hwf H. unfold getCallsRoute in H.
  destruct (strict_eq_number (JNum me) (str_to_number userIdParam)) eqn:Hid; cbn [negb] in H;
    [|discriminate].
  apply strict_eq_number_true in Hid as [z [Ez Hz]]. injection Ez as <-. rewrite Hz in *.
  destruct (getCalls iso (NNum me) s) as [cs|] eqn:Hg; [|discriminate].
  injection H as <- <-. split; [reflexivity|]. split; [reflexivity|]. split.
  - rewrite length_map. unfold getCalls in Hg.
    pose proof (all_ok_length _ _ Hg) as L. rewrite length_map in L. exact L.
  - intros v Hv. apply in_map_iff in Hv as [c [<- Hc]]. exists c. split; [reflexivity|].
    unfold getCalls in Hg. apply (all_ok_in _ _ Hg) in Hc.
    apply in_map_iff in Hc as [call [Hr Hin]]. apply filter_In in Hin as [Hin Hp].
    apply in_map_iff in Hin as [[k call'] [Ec Hin]]. cbn [snd] in Ec. subst call'.
    pose proof (Hwf _ _ Hin) as Hnd.
    unfold call_response in Hr.
    destruct (date_iso iso (field call "startTime")) as [st|]; [|discriminate].
    destruct (match field call "endTime" with
              | JNum t => Some (JStr (iso t))
              | v => if truthy v then None else Some JNull end) as [et|]; [|discriminate].
    destruct (match getUserAt (field call "initiatorId") s with
              | None => Some JUndef | Some u => user_summary iso u end) as [ini|] eqn:Hi;
      [|discriminate].
    destruct (match getUserAt (field call "receiverId") s with
              | None => Some JUndef | Some u => user_summary iso u end) as [rec|] eqn:Hr';
      [|discriminate].
    injection Hr as <-. split.
    + unfold field at 1 2. rewrite !obj_get_set. cbn [String.eqb Ascii.eqb Bool.eqb].
      rewrite !obj_get_copy by exact Hnd. exact Hp.
    + intros side [-> | ->]; rewrite !obj_get_set; cbn [String.eqb Ascii.eqb Bool.eqb].
      * destruct (call_response_side _ _ _ _ Hi) as [-> | [sm [-> Hs]]]; [now left|].
        right. now exists sm.
      * destruct (call_response_side _ _ _ _ Hr') as [-> | [sm [-> Hs]]]; [now left|].
        right. now exists sm.
Qed.

Lemma getCallsRoute_own_calls_witness :
  exists vs,
    calls_wf store_with_call /\
    getCallsRoute iso_stub 1 "1" store_with_call = HJson 200 (JArr vs) /\
    vs <> [] /\
    200%Z = 200%Z /\ str_to_number "1" = NNum 1 /\
    List.length vs =
      List.length (filter (fun call => orb (strict_eq_number (field call "initiatorId") (NNum 1))
                                           (strict_eq_number (field call "receiverId") (NNum 1)))
                     (map snd (calls store_with_call))) /\
    forall v, In v vs ->
      exists c, v = JObj c /\
        orb (strict_eq_number (field c "initiatorId") (NNum 1))
            (strict_eq_number (field c "receiverId") (NNum 1)) = true /\
        forall side, side = "initiator" \/ side = "receiver" ->
          obj_get c side = Some JUndef \/
          exists sm, obj_get c side = Some (JObj sm) /\ obj_get sm "password" = None.
Proof.
  pose (vs := match getCallsRoute iso_stub 1 "1" store_with_call with
              | HJson _ (JArr vs) => vs | _ => [] end).
  assert (E : getCallsRoute iso_stub 1 "1" store_with_call = HJson 200 (JArr vs))
    by (vm_compute; reflexivity).
  exists vs. split; [exact calls_wf_store_with_call|]. split; [exact E|].
  split; [vm_compute; discriminate|].
  exact (getCallsRoute_own_calls iso_stub 1 "1" store_with_call 200 vs calls_wf_store_with_call E).
Defined.

End CallListExtras.
